(** * CredBazar form collector: OTP gate, daily ledger, mail dispatcher

    A shallow embedding of [server/index.js] (the second file archived in
    [src/server/test-smtp.js]) and the properties its specification states
    about it.

    Conventions of the embedding.
    - A JavaScript string is a [string] whose characters are code units
      in the range 0..255.
    - A JavaScript scalar is a [jsval]; numbers are integers ([Z]).
    - [Date.now()] is a parameter [now : Z] in milliseconds, and
      [new Date().toISOString()] a parameter [iso : string].
    - The global [otpStore] ([Map]) is a [gmap string otpRecord]; the
      global counter and queue of the mail limiter are a [gate]; the
      [data/] directory is a [gmap string workbook] keyed by file name.
      Handlers take the state and return the new one. *)

From Stdlib Require Import ZArith String Ascii List Bool Lia DecimalString.
From Stdlib Require DecimalFacts DecimalPos DecimalZ.
From stdpp Require Import base option list gmap strings.
Import ListNotations.

Local Open Scope Z_scope.

(** ** JavaScript strings and scalars *)

Module Js.

(** White space and line terminators removed by [String.prototype.trim],
    restricted to code units below 256: TAB, LF, VT, FF, CR, SP, NBSP. *)
Definition isWhiteSpace (c : ascii) : bool :=
  let n := N_of_ascii c in
  ((9 <=? n) && (n <=? 13) || (n =? 32) || (n =? 160))%N.

Fixpoint trimStart (s : string) : string :=
  match s with
  | EmptyString => EmptyString
  | String c s' => if isWhiteSpace c then trimStart s' else s
  end.

Fixpoint trimEnd (s : string) : string :=
  match s with
  | EmptyString => EmptyString
  | String c s' =>
      match trimEnd s' with
      | EmptyString => if isWhiteSpace c then EmptyString else String c EmptyString
      | t => String c t
      end
  end.

(** [s.trim()] *)
Definition trim (s : string) : string := trimEnd (trimStart s).

(** [String(n)] for an integer [n]. *)
Definition string_of_Z (n : Z) : string := NilZero.string_of_int (Z.to_int n).

Fixpoint repeatChar (c : ascii) (n : nat) : string :=
  match n with
  | O => EmptyString
  | S k => String c (repeatChar c k)
  end.

(** [s.padStart(n, c)] for a one-character filler [c]. *)
Definition padStart (n : nat) (c : ascii) (s : string) : string :=
  repeatChar c (n - String.length s) +:+ s.

(** [s.slice(-n)]: the last [n] characters (all of [s] when it is shorter). *)
Definition sliceLast (n : nat) (s : string) : string :=
  substring (String.length s - n) n s.

Inductive jsval : Type :=
| VStr (s : string)
| VNum (n : Z)
| VBool (b : bool).

(** Truthiness, as tested by [if (v)], [!v] and [v || d]. *)
Definition truthy (v : jsval) : bool :=
  match v with
  | VStr s => negb (String.eqb s "")
  | VNum n => negb (n =? 0)
  | VBool b => b
  end.

(** [String(v)] *)
Definition toString (v : jsval) : string :=
  match v with
  | VStr s => s
  | VNum n => string_of_Z n
  | VBool true => "true"
  | VBool false => "false"
  end.

(** [v || ''] where [v] may be [undefined] ([None]). *)
Definition orEmpty (v : option jsval) : jsval :=
  match v with
  | Some x => if truthy x then x else VStr ""
  | None => VStr ""
  end.

(** A plain object: its own keys in [Object.keys] order, each with its
    value; keys are distinct. *)
Definition jsobject : Type := list (string * jsval).

Definition keys (o : jsobject) : list string := map fst o.

(** [o[k]] *)
Fixpoint get (o : jsobject) (k : string) : option jsval :=
  match o with
  | [] => None
  | (k', v) :: o' => if String.eqb k' k then Some v else get o' k
  end.

(** [o[k] = v]: an existing key keeps its place, a new key goes last. *)
Fixpoint set (o : jsobject) (k : string) (v : jsval) : jsobject :=
  match o with
  | [] => [(k, v)]
  | (k', v') :: o' =>
      if String.eqb k' k then (k', v) :: o' else (k', v') :: set o' k v
  end.

End Js.

Import Js.

(** ** OTP verifier *)

Module Otp.

Record otpRecord : Type := {
  otp : string;
  timestamp : Z;
  attempts : Z;
  verified : bool
}.

(** [const OTP_RESEND_COOLDOWN = 2 * 60 * 1000] *)
Definition OTP_RESEND_COOLDOWN : Z := 2 * 60 * 1000.

Definition isDigit (c : ascii) : bool :=
  let n := N_of_ascii c in ((48 <=? n) && (n <=? 57))%N.

Fixpoint allDigits (s : string) : bool :=
  match s with
  | EmptyString => true
  | String c s' => isDigit c && allDigits s'
  end.

(** [/^[0-9]{10}$/.test(mobile)] *)
Definition validMobile (mobile : string) : bool :=
  (String.length mobile =? 10)%nat && allDigits mobile.

(** [generateOTP(length = 6)], for [1 <= length <= 15]: every number the
    code computes is then an integer below [2^53], which a double holds
    exactly and [toString] prints in full.  [u] is the draw: the number
    [Math.floor] returns is [10^(length-1) + u], with
    [0 <= u < 9 * 10^(length-1)].  The server only calls [generateOTP()],
    that is with length 6. *)
Definition generateOTP (length : Z) (u : Z) : string :=
  string_of_Z (10 ^ (length - 1) + u).

(** [sendOTPViaThirdParty]: the demo body logs and reports success. *)
Definition sendOTPViaThirdParty (mobile code : string) : bool := true.

(** [Math.ceil(x / 1000)] on integers. *)
Definition ceilDiv1000 (x : Z) : Z := - ((- x) / 1000).

Inductive sendOtpResponse : Type :=
| SendInvalidMobile                      (* 400 'Invalid mobile number' *)
| SendCooldown (remainingSeconds : Z)    (* 429, remainingTime *)
| SendFailed                             (* 500 'Failed to send OTP' *)
| SendOk (maskedMobile : string).        (* 200 *)

(** [POST /send-otp].  [mobile] is the body field (the empty string when
    it is absent), [u] the random draw of [generateOTP]. *)
Definition send_otp (mobile : string) (now : Z) (u : Z)
    (otpStore : gmap string otpRecord) : sendOtpResponse * gmap string otpRecord :=
  if String.eqb mobile "" || negb (validMobile mobile) then
    (SendInvalidMobile, otpStore)
  else
    let cooldown :=
      match otpStore !! mobile with
      | Some existingOTP =>
          let timeSinceLastOTP := now - timestamp existingOTP in
          if timeSinceLastOTP <? OTP_RESEND_COOLDOWN then
            Some (ceilDiv1000 (OTP_RESEND_COOLDOWN - timeSinceLastOTP))
          else None
      | None => None
      end in
    match cooldown with
    | Some remainingSeconds => (SendCooldown remainingSeconds, otpStore)
    | None =>
        let code := generateOTP 6 u in
        let otpStore' :=
          <[mobile := {| otp := code; timestamp := now; attempts := 0; verified := false |}]>
            otpStore in
        if sendOTPViaThirdParty mobile code then
          (SendOk (padStart 10 "*" (sliceLast 4 mobile)), otpStore')
        else (SendFailed, otpStore')
    end.

Inductive verifyOtpResponse : Type :=
| VerifyMissing      (* 400 'Mobile and OTP required' *)
| VerifyNotFound     (* 400 'OTP expired or not sent' *)
| VerifyExpired      (* 400 'OTP expired' *)
| VerifyTooMany      (* 400 'Too many attempts. Request new OTP' *)
| VerifyInvalid      (* 400 'Invalid OTP' *)
| VerifyOk.          (* 200 'OTP verified successfully' *)

(** [otpData.attempts += 1] *)
Definition bumpAttempts (d : otpRecord) : otpRecord :=
  {| otp := otp d; timestamp := timestamp d;
     attempts := attempts d + 1; verified := verified d |}.

(** [otpData.verified = true] *)
Definition markVerified (d : otpRecord) : otpRecord :=
  {| otp := otp d; timestamp := timestamp d;
     attempts := attempts d; verified := true |}.

(** [POST /verify-otp].  [mobile] and [code] are the body fields (the
    empty string when absent).  [otpData] is the object held by the map,
    so an assignment to one of its fields updates the stored record. *)
Definition verify_otp (mobile code : string) (now : Z)
    (otpStore : gmap string otpRecord) : verifyOtpResponse * gmap string otpRecord :=
  if String.eqb mobile "" || String.eqb code "" then (VerifyMissing, otpStore)
  else
    match otpStore !! mobile with
    | None => (VerifyNotFound, otpStore)
    | Some otpData =>
        if now - timestamp otpData >? 10 * 60 * 1000 then
          (VerifyExpired, delete mobile otpStore)
        else if attempts otpData >=? 3 then
          (VerifyTooMany, delete mobile otpStore)
        else if negb (String.eqb (otp otpData) (trim code)) then
          (VerifyInvalid, <[mobile := bumpAttempts otpData]> otpStore)
        else
          (VerifyOk, <[mobile := markVerified otpData]> otpStore)
    end.

(** [otpStore.get(mobile)] for the [mobile] field of a request body: a
    key that is not a string finds nothing, the map being keyed by strings. *)
Definition getByBody (body : jsobject) (otpStore : gmap string otpRecord)
    : option otpRecord :=
  match get body "mobile" with
  | Some (VStr m) => otpStore !! m
  | _ => None
  end.

(** [otpStore.delete(mobile)] for the same field. *)
Definition deleteByBody (body : jsobject) (otpStore : gmap string otpRecord)
    : gmap string otpRecord :=
  match get body "mobile" with
  | Some (VStr m) => delete m otpStore
  | _ => otpStore
  end.

End Otp.

Import Otp.

(** ** Ledger manager *)

Module Ledger.

(** A cell read through [row.values]: [None] where the row has no value
    (a hole of the sparse array). *)
Definition cell : Type := option jsval.

(** [row.values.slice(1)]: the cells of columns 1, 2, ... *)
Definition row : Type := list cell.

Record worksheet : Type := { name : string; rows : list row }.

(** [workbook.worksheets], in order.  The value stored for a file is what
    the next [readFile] of it returns. *)
Definition workbook : Type := list worksheet.

Record jsdate : Type := { year : Z; month : Z (* 0..11 *); day : Z }.

(** [todayFilename(date)] *)
Definition todayFilename (d : jsdate) : string :=
  string_of_Z (year d) +:+ "-" +:+ padStart 2 "0" (string_of_Z (month d + 1))
    +:+ "-" +:+ padStart 2 "0" (string_of_Z (day d)) +:+ ".xlsx".

(** [path.join(dir, name)] for a directory path without a trailing
    separator and a plain file name (POSIX). *)
Definition pathJoin (dir name : string) : string := dir +:+ "/" +:+ name.

(** [fs.existsSync(fname)] *)
Definition existsSync (fname : string) (files : gmap string workbook) : bool :=
  match files !! fname with Some _ => true | None => false end.

(** [row.values] holds the cells that have a value, so its length stops
    at the last of them. *)
Fixpoint values (r : row) : row :=
  match r with
  | [] => []
  | c :: r' =>
      match values r', c with
      | [], None => []
      | t, _ => c :: t
      end
  end.

(** [worksheet.getRow(n)], an empty row when the sheet has none there. *)
Definition getRow (n : nat) (ws : worksheet) : row :=
  nth (n - 1) (rows ws) [].

(** [worksheet.addRow(a)]: an array that owns index 0 is contiguous and
    fills columns 1, 2, ...; otherwise it is read as sparse, index [i]
    filling column [i]. *)
Definition addRow (a : list cell) : row :=
  match a with
  | [] => []
  | Some v :: _ => a
  | None :: t => t
  end.

Definition nonEmptyString (h : string) : bool := negb (String.eqb h "").

Definition headerCells (headers : list string) : row :=
  map (fun h => Some (VStr h)) headers.

(** [Array.from(new Set(l))]: first occurrences, in order. *)
Definition uniq (l : list string) : list string :=
  fold_left (fun acc h => if existsb (String.eqb h) acc then acc else acc ++ [h]) l [].

(** The [else] branch of [appendToDailyExcel]: a new sheet holding the
    header and the one row of [record]. *)
Definition freshSheet (record : jsobject) (iso : string) : worksheet :=
  let headers :=
    List.filter nonEmptyString (map trim (keys record)) ++ ["added_at"] in
  let rowValues :=
    map (fun h => if String.eqb h "added_at" then VStr iso
                  else orEmpty (get record h)) headers in
  {| name := "submissions";
     rows := [headerCells headers; addRow (map Some rowValues)] |}.

(** The loop body that maps a stored row back to an object:
    [mapped[existingHeaders[i]] = vals[i] !== undefined ? vals[i] : ''] *)
Fixpoint mapRow (existingHeaders : list string) (vals : row) (mapped : jsobject)
    : jsobject :=
  match existingHeaders with
  | [] => mapped
  | h :: hs =>
      mapRow hs (tl vals)
        (set mapped h (match vals with Some v :: _ => v | _ => VStr "" end))
  end.

Definition isBlankValue (v : jsval) : bool :=
  match v with VStr s => String.eqb s "" | _ => false end.

(** The [then] branch of [appendToDailyExcel] (guarded by
    [false && fs.existsSync(fname)]): read the sheet, merge the headers,
    re-align the stored rows, add the row of [record].  [None] when it
    throws. *)
Definition reconcileSheet (record : jsobject) (iso : string) (wb : workbook)
    : option workbook :=
  match wb with
  | [] => None
  | worksheet :: others =>
      let firstRowVals := values (getRow 1 worksheet) in
      match firstRowVals with
      | [] => None   (* [false.filter] is not a function *)
      | _ =>
          let existingHeaders :=
            List.filter nonEmptyString (map toString (omap id firstRowVals)) in
          let incomingKeys := keys record in
          let allHeaders0 :=
            List.filter nonEmptyString
              (map trim (uniq (existingHeaders ++ incomingKeys))) in
          let allHeaders :=
            if existsb (String.eqb "added_at") allHeaders0 then allHeaders0
            else allHeaders0 ++ ["added_at"] in
          let existingData :=
            List.filter (fun mapped => existsb (fun kv => negb (isBlankValue (snd kv))) mapped)
              (map (fun r => mapRow existingHeaders (values r) []) (tl (rows worksheet))) in
          let prevRows :=
            map (fun prev => addRow (map (fun h => Some (orEmpty (get prev h))) allHeaders))
              existingData in
          let newRowVals :=
            map (fun h => if String.eqb h "added_at" then VStr iso
                          else orEmpty (get record h)) allHeaders in
          let oldName :=
            if String.eqb (name worksheet) "" then "submissions" else name worksheet in
          Some (others ++
                [{| name := oldName;
                    rows := headerCells allHeaders :: prevRows
                            ++ [addRow (map Some newRowVals)] |}])
      end
  end.

(** [appendToDailyExcel(record, date)].  [writeOk] tells whether
    [writeFile] succeeds; [None] when the function throws, the directory
    being then as it was. *)
Definition appendToDailyExcel (record : jsobject) (date : jsdate) (iso : string)
    (writeOk : bool) (files : gmap string workbook)
    : option (string * gmap string workbook) :=
  let fname := todayFilename date in
  let written :=
    if false && existsSync fname files then
      match files !! fname with
      | Some wb => reconcileSheet record iso wb
      | None => None
      end
    else Some [freshSheet record iso] in
  match written with
  | Some wb => if writeOk then Some (fname, <[fname := wb]> files) else None
  | None => None
  end.

(** The test of [repairXlsxFile] on the first and second cell of row 1. *)
Definition emptyCell (c : option cell) : bool :=
  match c with
  | None | Some None => true
  | Some (Some v) => isBlankValue v
  end.

Definition shiftedHeader (firstRowVals : row) : bool :=
  emptyCell (firstRowVals !! 0%nat)
  && match firstRowVals !! 1%nat with
     | Some (Some v) => truthy v
     | _ => false
     end.

Definition isShifted (ws : worksheet) : bool :=
  shiftedHeader (values (getRow 1 ws)).

(** [while (shifted.length < n) shifted.push('')] *)
Definition padTo (n : nat) (shifted : list cell) : list cell :=
  shifted ++ repeat (Some (VStr "")) (n - length shifted).

(** The body run by [repairXlsxFile] for a sheet that passes the test:
    the sheet that replaces it. *)
Definition rebuildSheet (ws : worksheet) : worksheet :=
  let firstRowVals := values (getRow 1 ws) in
  let oldHeadersLength := length firstRowVals in
  let newHeaders :=
    List.filter nonEmptyString
      (map (fun v => trim (toString v)) (omap id firstRowVals)) in
  let dataRows := map values (tl (rows ws)) in
  let shift :=
    if (oldHeadersLength =? length newHeaders + 1)%nat then 1%nat else 0%nat in
  let newRows :=
    map (fun vals => addRow (padTo (length newHeaders) (drop shift vals))) dataRows in
  {| name := if String.eqb (name ws) "" then "submissions" else name ws;
     rows := match newHeaders with
             | [] => newRows
             | _ => headerCells newHeaders :: newRows
             end |}.

(** The [forEach] of [repairXlsxFile]: a sheet that passes the test is
    removed and its replacement added after the sheets in place. *)
Definition repairWorkbook (wb : workbook) : bool * workbook :=
  (existsb isShifted wb,
   List.filter (fun ws => negb (isShifted ws)) wb
     ++ map rebuildSheet (List.filter isShifted wb)).

(** [repairXlsxFile(filePath)]: [None] when reading or writing throws. *)
Definition repairXlsxFile (filePath : string) (writeOk : bool)
    (files : gmap string workbook) : option (bool * gmap string workbook) :=
  match files !! filePath with
  | None => None
  | Some wb =>
      let '(changed, wb') := repairWorkbook wb in
      if changed then
        if writeOk then Some (true, <[filePath := wb']> files) else None
      else Some (false, files)
  end.

(** Rows below the header. *)
Definition dataRows (ws : worksheet) : list row := tl (rows ws).

(** The header as read back: the values of row 1. *)
Definition header (ws : worksheet) : row := values (getRow 1 ws).

End Ledger.

Import Ledger.

(** ** Notification dispatcher *)

Module Dispatcher.

(** [emailActive] and [emailQueue]; a queued [resolve] callback is named
    by the number of the caller it resumes. *)
Record gate : Type := { emailActive : Z; emailQueue : list nat }.

Definition idle : gate := {| emailActive := 0; emailQueue := [] |}.

Inductive mailResult : Type :=
| Sent (info : string)
| Rejected (err : string).

Inductive retryResult : Type :=
| RetryOk (info : string)                 (* { ok: true, info } *)
| RetryFailed (error : option string).    (* { ok: false, error: lastErr } *)

(** What a send does, in order: calls of [transporter.sendMail] (numbered
    from 0) and [sleep(ms)]. *)
Inductive effect : Type :=
| SendMail (i : nat)
| Sleep (ms : Z).

(** The [for] loop of [sendWithRetry] from index [i] with [remaining]
    iterations left; [sendMail i] is the outcome of the call made at
    index [i]. *)
Fixpoint sendLoop (sendMail : nat -> mailResult) (remaining i : nat)
    (lastErr : option string) : retryResult * list effect :=
  match remaining with
  | O => (RetryFailed lastErr, [])
  | S k =>
      match sendMail i with
      | Sent info => (RetryOk info, [SendMail i])
      | Rejected err =>
          let backoff := 2 ^ Z.of_nat i * 1000 in
          let '(r, tr) := sendLoop sendMail k (S i) (Some err) in
          (r, SendMail i :: Sleep backoff :: tr)
      end
  end.

(** [sendWithRetry(transporter, mailOptions, attempts)] *)
Definition sendWithRetry (sendMail : nat -> mailResult) (attempts : nat)
    : retryResult * list effect :=
  sendLoop sendMail attempts 0 None.

Inductive dispatchResult : Type :=
| NoFile                                   (* { ok: false, message: 'No file' } *)
| DispatchFailed (error : string)          (* { ok: false, error: String(result.error) } *)
| Delivered (file : string) (info : string).

(** [String(result.error)] *)
Definition errorString (e : option string) : string :=
  match e with Some s => s | None => "null" end.

Section Gate.

(** [Number(process.env.EMAIL_CONCURRENCY || 2)], a whole number. *)
Variable EMAIL_CONCURRENCY : Z.

(** [path.join(__dirname, 'data')] *)
Variable DATA_DIR : string.

(** [acquireEmailSlot()] called by [me]: the new gate, and whether the
    promise is resolved at once. *)
Definition acquireEmailSlot (me : nat) (g : gate) : gate * bool :=
  if emailActive g <? EMAIL_CONCURRENCY then
    ({| emailActive := emailActive g + 1; emailQueue := emailQueue g |}, true)
  else
    ({| emailActive := emailActive g; emailQueue := emailQueue g ++ [me] |}, false).

(** [releaseEmailSlot()]: the new gate, and the caller it resumes. *)
Definition releaseEmailSlot (g : gate) : gate * option nat :=
  let active := Z.max 0 (emailActive g - 1) in
  match emailQueue g with
  | [] => ({| emailActive := active; emailQueue := [] |}, None)
  | next :: queue => ({| emailActive := active + 1; emailQueue := queue |}, Some next)
  end.

Inductive gateCall : Type :=
| Acquire (me : nat)
| Release.

Definition gateStep (g : gate) (c : gateCall) : gate :=
  match c with
  | Acquire me => fst (acquireEmailSlot me g)
  | Release => fst (releaseEmailSlot g)
  end.

(** The gate after a sequence of calls, in the order they run. *)
Definition gateRun (calls : list gateCall) (g : gate) : gate :=
  fold_left gateStep calls g.

(** The callers put on the queue by a sequence of calls, in order. *)
Fixpoint queuedBy (calls : list gateCall) (g : gate) : list nat :=
  match calls with
  | [] => []
  | c :: calls' =>
      match c with
      | Acquire me => if snd (acquireEmailSlot me g) then [] else [me]
      | Release => []
      end ++ queuedBy calls' (gateStep g c)
  end.

(** The callers resumed by the releases of a sequence of calls, in order. *)
Fixpoint resumedBy (calls : list gateCall) (g : gate) : list nat :=
  match calls with
  | [] => []
  | c :: calls' =>
      match c with
      | Acquire _ => []
      | Release => match snd (releaseEmailSlot g) with Some w => [w] | None => [] end
      end ++ resumedBy calls' (gateStep g c)
  end.

(** How [sendDailyEmailForDate] drives the limiter: a caller reaches
    [await acquireEmailSlot()], and a caller whose promise was resolved
    runs [releaseEmailSlot()] in its [finally] block. *)
Inductive gateEvent : Type :=
| Asks (me : nat)
| Settles (me : nat).

(** The limiter with its callers: [inFlight] are the callers whose
    promise has been resolved (at once by [acquireEmailSlot], or later by
    the [next()] of a release) and whose [finally] block has not run;
    [waited] are the callers that were queued and [resumed] those a
    release has resumed, both in order. *)
Record limiter : Type := {
  slots : gate;
  inFlight : list nat;
  waited : list nat;
  resumed : list nat
}.

Definition limiterIdle : limiter :=
  {| slots := idle; inFlight := []; waited := []; resumed := [] |}.

Fixpoint removeOne (me : nat) (l : list nat) : list nat :=
  match l with
  | [] => []
  | x :: l' => if Nat.eqb x me then l' else x :: removeOne me l'
  end.

(** One event; [None] for a release by a caller that holds no slot,
    which the code never runs. *)
Definition limiterStep (s : limiter) (ev : gateEvent) : option limiter :=
  match ev with
  | Asks me =>
      let '(g, now) := acquireEmailSlot me (slots s) in
      Some {| slots := g;
              inFlight := if now then inFlight s ++ [me] else inFlight s;
              waited := if now then waited s else waited s ++ [me];
              resumed := resumed s |}
  | Settles me =>
      if existsb (Nat.eqb me) (inFlight s) then
        let '(g, next) := releaseEmailSlot (slots s) in
        let woken := match next with Some w => [w] | None => [] end in
        Some {| slots := g;
                inFlight := removeOne me (inFlight s) ++ woken;
                waited := waited s;
                resumed := resumed s ++ woken |}
      else None
  end.

Fixpoint limiterRun (events : list gateEvent) (s : limiter) : option limiter :=
  match events with
  | [] => Some s
  | ev :: events' =>
      match limiterStep s ev with
      | Some s' => limiterRun events' s'
      | None => None
      end
  end.

(** [sendDailyEmailForDate] up to [await acquireEmailSlot()]. *)
Inductive dispatchStart : Type :=
| StartNoFile              (* returns { ok: false, message: 'No file' } *)
| StartThrew               (* [makeTransporter] throws *)
| StartAdmitted (g : gate) (* holds a slot *)
| StartQueued (g : gate).  (* waits on the queue *)

Definition dispatchBegin (me : nat) (date : jsdate) (smtpConfigured : bool)
    (files : gmap string workbook) (g : gate) : dispatchStart :=
  if negb (existsSync (todayFilename date) files) then StartNoFile
  else if negb smtpConfigured then StartThrew
  else
    let '(g', now) := acquireEmailSlot me g in
    if now then StartAdmitted g' else StartQueued g'.

(** [sendDailyEmailForDate] once admitted: the [try] block, then the
    [finally] block run on the gate [g] as it is when the send settles. *)
Definition dispatchAdmitted (sendMail : nat -> mailResult) (attempts : nat)
    (date : jsdate) (g : gate)
    : dispatchResult * list effect * (gate * option nat) :=
  let '(result, tr) := sendWithRetry sendMail attempts in
  let answer :=
    match result with
    | RetryFailed error => DispatchFailed (errorString error)
    | RetryOk info => Delivered (pathJoin DATA_DIR (todayFilename date)) info
    end in
  (answer, tr, releaseEmailSlot g).

End Gate.

End Dispatcher.

(** ** Submission acceptor *)

Module Submission.

(** [FIELD_MAP] *)
Definition FIELD_MAP : list (string * string) :=
  [("LoanAmount", "LoanAmount"); ("MonthlyIncome", "MonthlyIncome");
   ("Mobile", "Mobile"); ("Email", "Email"); ("PAN1", "PAN"); ("DOB", "DOB");
   ("company", "Company"); ("City", "City"); ("Pincode", "Pincode");
   ("Occupation", "Occupation")].

Fixpoint fieldMap (m : list (string * string)) (k : string) : option string :=
  match m with
  | [] => None
  | (k', t) :: m' => if String.eqb k' k then Some t else fieldMap m' k
  end.

(** The members [FIELD_MAP], a plain object, inherits from
    [Object.prototype], each with the property name it gives when used
    as a key ([String] of a built-in function in Node; [__proto__] reads
    the prototype object itself). *)
Definition OBJECT_PROTOTYPE : list (string * string) :=
  [("constructor", "function Object() { [native code] }");
   ("__defineGetter__", "function __defineGetter__() { [native code] }");
   ("__defineSetter__", "function __defineSetter__() { [native code] }");
   ("hasOwnProperty", "function hasOwnProperty() { [native code] }");
   ("__lookupGetter__", "function __lookupGetter__() { [native code] }");
   ("__lookupSetter__", "function __lookupSetter__() { [native code] }");
   ("isPrototypeOf", "function isPrototypeOf() { [native code] }");
   ("propertyIsEnumerable", "function propertyIsEnumerable() { [native code] }");
   ("toString", "function toString() { [native code] }");
   ("valueOf", "function valueOf() { [native code] }");
   ("__proto__", "[object Object]");
   ("toLocaleString", "function toLocaleString() { [native code] }")].

(** [FIELD_MAP[k]] as a property name: an own entry, else an inherited
    member, else [undefined] ([None]).  Every value found is truthy. *)
Definition fieldMapMember (k : string) : option string :=
  match fieldMap FIELD_MAP k with
  | Some t => Some t
  | None => fieldMap OBJECT_PROTOTYPE k
  end.

(** [normalizeRecord(raw)].  [raw] lists the fields in [Object.keys]
    order (array-index names first, ascending), and so does the result:
    a name that is an array index is never a new target after a name
    that is not. *)
Definition normalizeRecord (raw : jsobject) : jsobject :=
  fold_left
    (fun out kv =>
       let k := fst kv in
       let target :=
         match fieldMapMember k with
         | Some t => t
         | None =>
             match fieldMapMember (trim k) with
             | Some t => t
             | None => k
             end
         end in
       set out target (snd kv))
    raw [].

Inductive submitLoanResponse : Type :=
| SubmitNotVerified                       (* 400 *)
| SubmitError                             (* 500 *)
| SubmitOk (file : string) (email : bool).

(** [POST /submit-loan].  [emailThrew] tells whether
    [sendDailyEmailForDate] throws. *)
Definition submit_loan (body : jsobject) (today : jsdate) (iso : string)
    (writeOk emailThrew : bool)
    (otpStore : gmap string otpRecord) (files : gmap string workbook)
    : submitLoanResponse * gmap string otpRecord * gmap string workbook :=
  match getByBody body otpStore with
  | None => (SubmitNotVerified, otpStore, files)
  | Some otpData =>
      if negb (verified otpData) then (SubmitNotVerified, otpStore, files)
      else
        match appendToDailyExcel (normalizeRecord body) today iso writeOk files with
        | None => (SubmitError, otpStore, files)
        | Some (filePath, files') =>
            (SubmitOk filePath (negb emailThrew), deleteByBody body otpStore, files')
        end
  end.

End Submission.

Import Dispatcher Submission.

(** ** Expected behaviour of a send *)

Module Expected.

(** [k] failed attempts, each followed by its back-off: attempt [i]
    (counted from 0) is followed by a sleep of [2^i * 1000] ms. *)
Definition failedAttempts (from k : nat) : list effect :=
  flat_map (fun i => [SendMail i; Sleep (2 ^ Z.of_nat i * 1000)]) (seq from k).

(** The counter stays within the limit, and is at the limit whenever a
    caller waits. *)
Definition gateInv (limit : Z) (g : gate) : Prop :=
  0 <= emailActive g <= limit ∧ (emailQueue g ≠ [] → emailActive g = limit).

(** What holds of the limiter with its callers: the counter is the
    number of callers in flight, which is within the maximum (none at
    all under a negative maximum) and at the maximum whenever a caller
    waits; and the callers still waiting are those queued and not yet
    resumed, in the order they were queued. *)
Definition limiterInv (maximum : Z) (s : limiter) : Prop :=
  emailActive (slots s) = Z.of_nat (length (inFlight s)) ∧
  Z.of_nat (length (inFlight s)) <= Z.max 0 maximum ∧
  (emailQueue (slots s) ≠ [] → Z.of_nat (length (inFlight s)) = Z.max 0 maximum) ∧
  waited s = resumed s ++ emailQueue (slots s).

(** Strings made of white space only. *)
Fixpoint allWhiteSpace (s : string) : bool :=
  match s with
  | EmptyString => true
  | String c s' => isWhiteSpace c && allWhiteSpace s'
  end.

(** A run of successful appends for one date, each with its time stamp. *)
Definition appendMany (date : jsdate) (submissions : list (jsobject * string))
    (files : gmap string workbook) : gmap string workbook :=
  fold_left
    (fun fs sub =>
       match appendToDailyExcel (fst sub) date (snd sub) true fs with
       | Some (_, fs') => fs'
       | None => fs
       end)
    submissions files.

(** The first header cell holds a value other than the empty string. *)
Definition headerFirstNonEmpty (ws : worksheet) : bool :=
  negb (emptyCell (header ws !! 0%nat)).

(** Some header cell holds a value with a character that [trim] keeps. *)
Definition someHeaderNonBlank (ws : worksheet) : bool :=
  existsb (fun v => nonEmptyString (trim (toString v))) (omap id (header ws)).

(** The second header cell holds a value with a character that [trim]
    keeps. *)
Definition secondHeaderNonBlank (ws : worksheet) : bool :=
  match header ws !! 1%nat with
  | Some (Some v) => nonEmptyString (trim (toString v))
  | _ => false
  end.

End Expected.

Import Expected.

(** ** The routes as one server *)

Module Server.

(** A request to one of the routes that read or write [otpStore], with
    what the handler draws from its environment. *)
Inductive request : Type :=
| SendOtp (mobile : string) (now u : Z)
| VerifyOtp (mobile code : string) (now : Z)
| SubmitLoan (body : jsobject) (today : jsdate) (iso : string) (writeOk emailThrew : bool).

(** The globals after a request is served. *)
Definition serve (st : gmap string otpRecord * gmap string workbook) (r : request)
    : gmap string otpRecord * gmap string workbook :=
  match r with
  | SendOtp mobile now u => (snd (send_otp mobile now u (fst st)), snd st)
  | VerifyOtp mobile code now => (snd (verify_otp mobile code now (fst st)), snd st)
  | SubmitLoan body today iso writeOk emailThrew =>
      let '(_, otpStore', files') :=
        submit_loan body today iso writeOk emailThrew (fst st) (snd st) in
      (otpStore', files')
  end.

(** The globals after a sequence of requests, served one after another. *)
Definition serveAll (requests : list request)
    (st : gmap string otpRecord * gmap string workbook)
    : gmap string otpRecord * gmap string workbook :=
  fold_left serve requests st.

(** The record written by [send_otp] for the draw [u] at time [now]. *)
Definition issuedRecord (u now : Z) : otpRecord :=
  {| otp := generateOTP 6 u; timestamp := now; attempts := 0; verified := false |}.

(** The column a raw field name is written under by [normalizeRecord]. *)
Definition targetOf (k : string) : string :=
  match fieldMapMember k with
  | Some t => t
  | None =>
      match fieldMapMember (trim k) with
      | Some t => t
      | None => k
      end
  end.

(** Milliseconds slept in a trace, and its numbers of calls and sleeps. *)
Fixpoint totalSleep (tr : list effect) : Z :=
  match tr with
  | [] => 0
  | Sleep ms :: tr' => ms + totalSleep tr'
  | SendMail _ :: tr' => totalSleep tr'
  end.

Fixpoint sendCount (tr : list effect) : nat :=
  match tr with
  | [] => 0
  | SendMail _ :: tr' => S (sendCount tr')
  | Sleep _ :: tr' => sendCount tr'
  end.

Fixpoint sleepCount (tr : list effect) : nat :=
  match tr with
  | [] => 0
  | Sleep _ :: tr' => S (sleepCount tr')
  | SendMail _ :: tr' => sleepCount tr'
  end.

End Server.

Import Server.

(** ** The repair route *)

Module Maintenance.

(** [f.endsWith(suffix)] *)
Definition endsWith (suffix f : string) : bool :=
  String.eqb (sliceLast (String.length suffix) f) suffix.

(** An entry of [results]: [{ file, repaired }] or [{ file, error }]. *)
Inductive repairEntry : Type :=
| Repaired (file : string) (changed : bool)
| RepairError (file : string).

(** The guard of the protected routes: [key && req.headers['x-send-key'] !== key],
    [key] being the empty string when [SEND_TRIGGER_KEY] is not set. *)
Definition forbidden (key : string) (header : option string) : bool :=
  negb (String.eqb key "")
  && match header with
     | Some h => negb (String.eqb h key)
     | None => true
     end.

(** The loop of [POST /repair-xlsx] over the names read from the data
    directory: the entries pushed so far and the directory. *)
Definition repairStep (writeOk : string → bool)
    (acc : list repairEntry * gmap string workbook) (f : string)
    : list repairEntry * gmap string workbook :=
  match repairXlsxFile f (writeOk f) (snd acc) with
  | Some (changed, files') => (fst acc ++ [Repaired f changed], files')
  | None => (fst acc ++ [RepairError f], snd acc)
  end.

(** [POST /repair-xlsx]: [None] for the answer 403.  [listing] is what
    [fs.readdirSync] returns, [writeOk f] whether [f] can be written. *)
Definition repair_xlsx (key : string) (header : option string)
    (listing : list string) (writeOk : string → bool)
    (files : gmap string workbook)
    : option (list repairEntry) * gmap string workbook :=
  if forbidden key header then (None, files)
  else
    let '(results, files') :=
      fold_left (repairStep writeOk) (List.filter (endsWith ".xlsx") listing) ([], files) in
    (Some results, files').



End Maintenance.

Import Maintenance.

(** ** Sample requests and states *)

Module Samples.

Definition mobile1 : string := "9999999999".

(** The store after [POST /send-otp] for [mobile1] at time 0, the random
    draw giving the code 123456. *)
Definition issued : gmap string otpRecord := snd (send_otp mobile1 0 23456 ∅).

Definition record1 : otpRecord :=
  {| otp := "123456"; timestamp := 0; attempts := 0; verified := false |}.

(** The store after the code was verified one minute later. *)
Definition checked : gmap string otpRecord :=
  snd (verify_otp mobile1 "123456" 60000 issued).

Definition day1 : jsdate := {| year := 2026; month := 0; day := 5 |}.

Definition body1 : jsobject :=
  [("LoanAmount", VNum 50000); ("mobile", VStr "9999999999")].

Definition record2 : jsobject :=
  [("LoanAmount", VNum 50000); ("Mobile", VStr "9999999999")].

Definition record3 : jsobject := [("City", VStr "Pune")].

(** A sheet whose header has no first cell and a blank second cell. *)
Definition blankHeader : worksheet :=
  {| name := "submissions"; rows := [[None; Some (VStr " ")]] |}.

(** The same header above one row whose first cell is the empty string. *)
Definition blankHeaderOneRow : worksheet :=
  {| name := "submissions";
     rows := [[None; Some (VStr " ")]; [Some (VStr ""); Some (VStr "x")]] |}.

(** A header shifted one column to the right, with its rows. *)
Definition shiftedSheet : worksheet :=
  {| name := "submissions";
     rows := [[None; Some (VStr "LoanAmount"); Some (VStr "added_at")];
              [None; Some (VNum 50000); Some (VStr "T")]] |}.

(** A transport that rejects the first two calls and accepts the third. *)
Definition flaky (i : nat) : mailResult :=
  match i with
  | 0%nat => Rejected "ETIMEDOUT"
  | 1%nat => Rejected "ECONNRESET"
  | _ => Sent "250 OK"
  end.

Definition dataDir : string := "/srv/credbazar/server/data".

(** Five callers reach the limiter, then the first two settle. *)
Definition rush : list gateEvent :=
  [Asks 1; Asks 2; Asks 3; Asks 4; Asks 5; Settles 1; Settles 2].

(** One send in flight, nobody waiting. *)
Definition oneInFlight : gate := {| emailActive := 1; emailQueue := [] |}.

(** Five callers ask for a slot, then two sends settle. *)
Definition burst : list gateCall :=
  [Acquire 1; Acquire 2; Acquire 3; Acquire 4; Acquire 5; Release; Release].

End Samples.

(** * Properties *)

(** ** OTP verifier *)

Section OtpFacts.

Implicit Types (otpStore : gmap string otpRecord) (mobile code : string).

Lemma eqb_empty_false (s : string) : s ≠ "" → String.eqb s "" = false.
Proof. intros H. by apply String.eqb_neq. Qed.

Lemma string_of_Z_nonempty (n : Z) : string_of_Z n ≠ "".
Proof.
  unfold string_of_Z. destruct (Z.to_int n) as [d | d]; simpl.
  - destruct d; discriminate.
  - discriminate.
Qed.

(** A code minted by [generateOTP] is never the empty string. *)
Lemma generateOTP_nonempty (len u : Z) : generateOTP len u ≠ "".
Proof. apply string_of_Z_nonempty. Qed.

(** A record that is neither expired nor exhausted is decided by the
    comparison with the trimmed code alone. *)
Lemma verify_otp_live mobile code now otpStore otpData :
  mobile ≠ "" → code ≠ "" →
  otpStore !! mobile = Some otpData →
  now - timestamp otpData <= 600000 →
  attempts otpData < 3 →
  verify_otp mobile code now otpStore =
    if String.eqb (otp otpData) (trim code)
    then (VerifyOk, <[mobile := markVerified otpData]> otpStore)
    else (VerifyInvalid, <[mobile := bumpAttempts otpData]> otpStore).
Proof.
  intros Hm Hc Hget Hage Hatt. unfold verify_otp.
  rewrite (eqb_empty_false _ Hm), (eqb_empty_false _ Hc), Hget. simpl.
  destruct (Z.gtb_spec (now - timestamp otpData) (10 * 60 * 1000)); [lia |].
  destruct (Z.geb_spec (attempts otpData) 3); [lia |].
  by destruct (String.eqb (otp otpData) (trim code)).
Qed.

(** Expiry is enforced by [verify_otp]: the record is deleted and the
    call fails. *)
Lemma verify_otp_expired mobile code now otpStore otpData :
  mobile ≠ "" → code ≠ "" →
  otpStore !! mobile = Some otpData →
  600000 < now - timestamp otpData →
  verify_otp mobile code now otpStore = (VerifyExpired, delete mobile otpStore).
Proof.
  intros Hm Hc Hget Hage. unfold verify_otp.
  rewrite (eqb_empty_false _ Hm), (eqb_empty_false _ Hc), Hget. simpl.
  destruct (Z.gtb_spec (now - timestamp otpData) (10 * 60 * 1000)); [done | lia].
Qed.

Lemma verify_otp_exhausted mobile code now otpStore otpData :
  mobile ≠ "" → code ≠ "" →
  otpStore !! mobile = Some otpData →
  now - timestamp otpData <= 600000 →
  3 <= attempts otpData →
  verify_otp mobile code now otpStore = (VerifyTooMany, delete mobile otpStore).
Proof.
  intros Hm Hc Hget Hage Hatt. unfold verify_otp.
  rewrite (eqb_empty_false _ Hm), (eqb_empty_false _ Hc), Hget. simpl.
  destruct (Z.gtb_spec (now - timestamp otpData) (10 * 60 * 1000)); [lia |].
  destruct (Z.geb_spec (attempts otpData) 3); [done | lia].
Qed.

Lemma verify_otp_absent mobile code now otpStore :
  mobile ≠ "" → code ≠ "" →
  otpStore !! mobile = None →
  verify_otp mobile code now otpStore = (VerifyNotFound, otpStore).
Proof.
  intros Hm Hc Hget. unfold verify_otp.
  by rewrite (eqb_empty_false _ Hm), (eqb_empty_false _ Hc), Hget.
Qed.

(** *** Trimming *)

Lemma isDigit_not_white (c : ascii) : isDigit c = true → isWhiteSpace c = false.
Proof.
  unfold isDigit, isWhiteSpace. intros H.
  apply andb_true_iff in H. destruct H as [H1 H2].
  apply N.leb_le in H1. apply N.leb_le in H2.
  apply orb_false_iff. split; [apply orb_false_iff; split |].
  - apply andb_false_iff. right. apply N.leb_gt. lia.
  - apply N.eqb_neq. lia.
  - apply N.eqb_neq. lia.
Qed.

Lemma trimStart_white_app (pre s : string) :
  allWhiteSpace pre = true → trimStart (pre +:+ s) = trimStart s.
Proof.
  induction pre as [| c pre IH]; [done |]. simpl. intros H.
  apply andb_true_iff in H. destruct H as [Hc Hpre]. rewrite Hc. by apply IH.
Qed.

Lemma trimEnd_white (post : string) : allWhiteSpace post = true → trimEnd post = "".
Proof.
  induction post as [| c post IH]; [done |]. simpl. intros H.
  apply andb_true_iff in H. destruct H as [Hc Hpost]. by rewrite (IH Hpost), Hc.
Qed.

Lemma trimEnd_app_white (s post : string) :
  allWhiteSpace post = true → trimEnd (s +:+ post) = trimEnd s.
Proof.
  intros Hpost. induction s as [| c s IH]; simpl.
  - by apply trimEnd_white.
  - by rewrite IH.
Qed.

Lemma trimEnd_digits (s : string) : allDigits s = true → trimEnd s = s.
Proof.
  induction s as [| c s IH]; [done |]. simpl. intros H.
  apply andb_true_iff in H. destruct H as [Hc Hs]. rewrite (IH Hs).
  destruct s; [| done]. by rewrite (isDigit_not_white c Hc).
Qed.

(** White space around a non-empty string of digits is trimmed away. *)
Lemma trim_padded_digits (pre s post : string) :
  allWhiteSpace pre = true → allWhiteSpace post = true →
  allDigits s = true → s ≠ "" →
  trim (pre +:+ s +:+ post) = s.
Proof.
  intros Hpre Hpost Hs Hne. unfold trim. rewrite (trimStart_white_app _ _ Hpre).
  destruct s as [| c s]; [done |]. simpl in Hs.
  apply andb_true_iff in Hs. destruct Hs as [Hc Hs].
  change (trimStart (String c s +:+ post))
    with (if isWhiteSpace c then trimStart (s +:+ post) else String c s +:+ post).
  rewrite (isDigit_not_white c Hc), (trimEnd_app_white _ _ Hpost).
  apply trimEnd_digits. simpl. by rewrite Hc, Hs.
Qed.

Lemma string_of_uint_digits (d : Decimal.uint) :
  allDigits (NilEmpty.string_of_uint d) = true.
Proof. induction d; simpl; done. Qed.

(** A code minted by [generateOTP] consists of digits. *)
Lemma generateOTP_digits (len u : Z) :
  0 <= 10 ^ (len - 1) + u → allDigits (generateOTP len u) = true.
Proof.
  intros H. unfold generateOTP, string_of_Z.
  destruct (10 ^ (len - 1) + u) as [| p | p]; [done | | lia].
  simpl. unfold NilZero.string_of_uint.
  destruct (Pos.to_uint p) eqn:E; try apply string_of_uint_digits. done.
Qed.

End OtpFacts.

Section OtpClaims.

Implicit Types (otpStore : gmap string otpRecord) (mobile code : string).

Lemma validMobile_nonempty mobile : validMobile mobile = true → mobile ≠ "".
Proof. intros H ->. discriminate H. Qed.

Lemma ceilDiv1000_bounds (x : Z) :
  x <= 1000 * ceilDiv1000 x < x + 1000.
Proof. unfold ceilDiv1000. Z.div_mod_to_equations. lia. Qed.

(** Within the cooldown window [send_otp] answers 429 with the seconds
    left, rounded up, and leaves the store as it was. *)
Lemma send_otp_cooldown mobile now u otpStore existingOTP :
  validMobile mobile = true →
  otpStore !! mobile = Some existingOTP →
  now - timestamp existingOTP < OTP_RESEND_COOLDOWN →
  send_otp mobile now u otpStore =
    (SendCooldown (ceilDiv1000 (OTP_RESEND_COOLDOWN - (now - timestamp existingOTP))),
     otpStore).
Proof.
  intros Hv Hget Hlt. unfold send_otp.
  rewrite (eqb_empty_false _ (validMobile_nonempty _ Hv)), Hv, Hget. simpl.
  destruct (Z.ltb_spec (now - timestamp existingOTP) OTP_RESEND_COOLDOWN); [done | lia].
Qed.

(** C9 (amended): for a valid 10-digit identifier with a stored record,
    an issue call made less than two minutes after the record's issuance
    is rejected with the remaining seconds, at least 1; between two such
    rejected calls the remaining seconds never increase, and they are
    strictly smaller when the calls are at least one second apart. *)
Theorem cooldown_remaining_seconds mobile otpStore existingOTP now1 now2 u1 u2 :
  validMobile mobile = true →
  otpStore !! mobile = Some existingOTP →
  now1 <= now2 →
  now2 - timestamp existingOTP < OTP_RESEND_COOLDOWN →
  ∃ r1 r2,
    send_otp mobile now1 u1 otpStore = (SendCooldown r1, otpStore) ∧
    send_otp mobile now2 u2 otpStore = (SendCooldown r2, otpStore) ∧
    1 <= r2 <= r1 ∧
    (1000 <= now2 - now1 → r2 < r1).
Proof.
  intros Hv Hget Hle Hlt.
  eexists _, _. split; [| split].
  - apply (send_otp_cooldown _ _ _ _ _ Hv Hget). lia.
  - apply (send_otp_cooldown _ _ _ _ _ Hv Hget). lia.
  - pose proof (ceilDiv1000_bounds (OTP_RESEND_COOLDOWN - (now1 - timestamp existingOTP))).
    pose proof (ceilDiv1000_bounds (OTP_RESEND_COOLDOWN - (now2 - timestamp existingOTP))).
    lia.
Qed.

Lemma verify_otp_ok_iff mobile code now otpStore otpData :
  mobile ≠ "" →
  otpStore !! mobile = Some otpData →
  otp otpData ≠ "" →
  now - timestamp otpData <= 600000 →
  attempts otpData < 3 →
  fst (verify_otp mobile code now otpStore) = VerifyOk ↔ trim code = otp otpData.
Proof.
  intros Hm Hget Hotp Hage Hatt.
  destruct (decide (code = "")) as [-> | Hc].
  - unfold verify_otp. rewrite orb_true_r. simpl. split; [discriminate |].
    intros E. by rewrite <- E in Hotp.
  - rewrite (verify_otp_live _ _ _ _ _ Hm Hc Hget Hage Hatt).
    destruct (String.eqb_spec (otp otpData) (trim code)) as [E | E]; simpl.
    + split; [done | by intros _].
    + split; [discriminate | intros E'; by rewrite E' in E].
Qed.

(** C10: for a stored record that is neither expired nor exhausted,
    verification succeeds exactly when the submitted code, trimmed,
    equals the stored code; so the stored digits with white space before
    and after them are accepted. *)
Theorem verify_compares_trimmed_code mobile code now otpStore otpData :
  mobile ≠ "" →
  otpStore !! mobile = Some otpData →
  otp otpData ≠ "" →
  now - timestamp otpData <= 600000 →
  attempts otpData < 3 →
  (fst (verify_otp mobile code now otpStore) = VerifyOk ↔ trim code = otp otpData) ∧
  (∀ pre post,
     allWhiteSpace pre = true → allWhiteSpace post = true →
     allDigits (otp otpData) = true →
     fst (verify_otp mobile (pre +:+ otp otpData +:+ post) now otpStore) = VerifyOk).
Proof.
  intros Hm Hget Hotp Hage Hatt. split.
  - by apply verify_otp_ok_iff.
  - intros pre post Hpre Hpost Hdig.
    apply (verify_otp_ok_iff _ _ _ _ _ Hm Hget Hotp Hage Hatt).
    by apply trim_padded_digits.
Qed.

(** C6 (amended): three mismatched attempts leave the record in the
    store with [attempts = 3]; the next verify, whatever its code, fails
    with [VerifyTooMany] and deletes the record; the verify after that
    fails with [VerifyNotFound]. *)
Theorem three_mismatches_then_too_many
    mobile otpStore otpData c1 c2 c3 c4 c5 t1 t2 t3 t4 t5 :
  mobile ≠ "" →
  c1 ≠ "" ∧ c2 ≠ "" ∧ c3 ≠ "" ∧ c4 ≠ "" ∧ c5 ≠ "" →
  otpStore !! mobile = Some otpData →
  attempts otpData = 0 →
  trim c1 ≠ otp otpData ∧ trim c2 ≠ otp otpData ∧ trim c3 ≠ otp otpData →
  t1 - timestamp otpData <= 600000 ∧ t2 - timestamp otpData <= 600000 ∧
  t3 - timestamp otpData <= 600000 ∧ t4 - timestamp otpData <= 600000 →
  let '(r1, s1) := verify_otp mobile c1 t1 otpStore in
  let '(r2, s2) := verify_otp mobile c2 t2 s1 in
  let '(r3, s3) := verify_otp mobile c3 t3 s2 in
  let '(r4, s4) := verify_otp mobile c4 t4 s3 in
  let '(r5, s5) := verify_otp mobile c5 t5 s4 in
  r1 = VerifyInvalid ∧ r2 = VerifyInvalid ∧ r3 = VerifyInvalid ∧
  s3 !! mobile = Some (bumpAttempts (bumpAttempts (bumpAttempts otpData))) ∧
  r4 = VerifyTooMany ∧ s4 !! mobile = None ∧
  r5 = VerifyNotFound.
Proof.
  intros Hm (H1 & H2 & H3 & H4 & H5) Hget Hatt (N1 & N2 & N3) (A1 & A2 & A3 & A4).
  assert (Hne : ∀ c, trim c ≠ otp otpData → String.eqb (otp otpData) (trim c) = false).
  { intros c N. apply String.eqb_neq. congruence. }
  rewrite (verify_otp_live _ _ _ _ _ Hm H1 Hget A1 ltac:(lia)), (Hne _ N1).
  rewrite (verify_otp_live mobile c2 t2 _ (bumpAttempts otpData) Hm H2
             ltac:(apply lookup_insert_eq) A2 ltac:(simpl; lia)).
  simpl otp. rewrite (Hne _ N2), insert_insert_eq.
  rewrite (verify_otp_live mobile c3 t3 _ (bumpAttempts (bumpAttempts otpData)) Hm H3
             ltac:(apply lookup_insert_eq) A3 ltac:(simpl; lia)).
  simpl otp. rewrite (Hne _ N3), insert_insert_eq.
  rewrite (verify_otp_exhausted mobile c4 t4 _
             (bumpAttempts (bumpAttempts (bumpAttempts otpData))) Hm H4
             ltac:(apply lookup_insert_eq) A4 ltac:(simpl; lia)).
  rewrite (verify_otp_absent mobile c5 t5 _ Hm H5 ltac:(apply lookup_delete_eq)).
  repeat split; try done.
  - apply lookup_insert_eq.
  - apply lookup_delete_eq.
Qed.

End OtpClaims.

Section OtpInstances.

Import Samples.

Lemma issued_lookup : issued !! mobile1 = Some record1.
Proof. reflexivity. Qed.

Lemma cooldown_remaining_seconds_witness :
  ∃ r1 r2,
    send_otp mobile1 5000 1 issued = (SendCooldown r1, issued) ∧
    send_otp mobile1 6000 2 issued = (SendCooldown r2, issued) ∧
    1 <= r2 <= r1 ∧
    (1000 <= 6000 - 5000 → r2 < r1).
Proof.
  apply (cooldown_remaining_seconds mobile1 issued record1 5000 6000 1 2).
  - reflexivity.
  - exact issued_lookup.
  - lia.
  - vm_compute. reflexivity.
Defined.

(** C9, as stated, fails: two rejected calls 100 ms apart both carry 120
    remaining seconds, so the value did not decrease although time
    advanced. *)
Lemma cooldown_not_strictly_decreasing :
  ∃ r1 r2,
    fst (send_otp mobile1 100 1 issued) = SendCooldown r1 ∧
    fst (send_otp mobile1 200 2 issued) = SendCooldown r2 ∧
    ¬ r2 < r1.
Proof. exists 120, 120. vm_compute. split; [done | split; [done | discriminate]]. Qed.

Lemma verify_compares_trimmed_code_witness :
  (fst (verify_otp mobile1 "123456" 60000 issued) = VerifyOk
   ↔ trim "123456" = otp record1)
  ∧ fst (verify_otp mobile1 ("  " +:+ otp record1 +:+ " ") 60000 issued) = VerifyOk.
Proof.
  destruct (verify_compares_trimmed_code mobile1 "123456" 60000 issued record1)
    as [Hiff Hpad].
  - discriminate.
  - exact issued_lookup.
  - discriminate.
  - simpl. lia.
  - simpl. lia.
  - split; [exact Hiff |]. apply Hpad; reflexivity.
Defined.

Lemma three_mismatches_then_too_many_witness :
  let '(r1, s1) := verify_otp mobile1 "000000" 1000 issued in
  let '(r2, s2) := verify_otp mobile1 "111111" 2000 s1 in
  let '(r3, s3) := verify_otp mobile1 "222222" 3000 s2 in
  let '(r4, s4) := verify_otp mobile1 "123456" 4000 s3 in
  let '(r5, s5) := verify_otp mobile1 "123456" 5000 s4 in
  r1 = VerifyInvalid ∧ r2 = VerifyInvalid ∧ r3 = VerifyInvalid ∧
  s3 !! mobile1 = Some (bumpAttempts (bumpAttempts (bumpAttempts record1))) ∧
  r4 = VerifyTooMany ∧ s4 !! mobile1 = None ∧
  r5 = VerifyNotFound.
Proof.
  apply (three_mismatches_then_too_many mobile1 issued record1
           "000000" "111111" "222222" "123456" "123456" 1000 2000 3000 4000 5000).
  - discriminate.
  - repeat split; discriminate.
  - exact issued_lookup.
  - reflexivity.
  - repeat split; discriminate.
  - simpl. lia.
Defined.

(** C6, as stated, fails: after three mismatched attempts the record is
    still in the store, and the next verify with the correct code is
    answered [VerifyTooMany], not [VerifyNotFound]. *)
Lemma three_mismatches_keep_record :
  let s1 := snd (verify_otp mobile1 "000000" 1000 issued) in
  let s2 := snd (verify_otp mobile1 "111111" 2000 s1) in
  let s3 := snd (verify_otp mobile1 "222222" 3000 s2) in
  fst (verify_otp mobile1 "000000" 1000 issued) = VerifyInvalid ∧
  fst (verify_otp mobile1 "111111" 2000 s1) = VerifyInvalid ∧
  fst (verify_otp mobile1 "222222" 3000 s2) = VerifyInvalid ∧
  s3 !! mobile1 ≠ None ∧
  fst (verify_otp mobile1 "123456" 4000 s3) ≠ VerifyNotFound.
Proof. vm_compute. repeat split; discriminate || reflexivity. Qed.

End OtpInstances.

(** ** Submission acceptor *)

Section SubmissionClaims.

Import Samples.

Implicit Types (otpStore : gmap string otpRecord) (files : gmap string workbook).

(** Without I/O failure [appendToDailyExcel] writes the fresh one-row
    sheet under the name of the date, whatever the directory holds. *)
Lemma appendToDailyExcel_writes record date iso files :
  appendToDailyExcel record date iso true files =
    Some (todayFilename date, <[todayFilename date := [freshSheet record iso]]> files).
Proof. reflexivity. Qed.

Lemma appendToDailyExcel_write_fails record date iso files :
  appendToDailyExcel record date iso false files = None.
Proof. reflexivity. Qed.

(** C4 (code bug): a record verified one minute after issuance is eleven
    minutes old at time 660001; [verify_otp] then treats it as expired,
    but [submit_loan], which never reads the clock, accepts the
    submission at any later time. *)
Theorem submit_accepts_record_past_expiry :
  checked !! mobile1 = Some (markVerified record1) ∧
  verify_otp mobile1 "123456" 660001 checked = (VerifyExpired, delete mobile1 checked) ∧
  ∀ today iso files,
    fst (fst (submit_loan body1 today iso true false checked files))
    = SubmitOk (todayFilename today) true.
Proof.
  split; [reflexivity |]. split; [reflexivity |].
  intros today iso files. reflexivity.
Qed.

(** C5 (amended): for a request whose [mobile] field is a string,
    [submit_loan] passes the OTP check exactly when a record exists and
    is verified; the record is removed when it was verified and the
    ledger append succeeded; an unverified record, and a verified record
    whose append failed, stay in the store. *)
Theorem consume_deletes_after_successful_append
    body mobile today iso writeOk emailThrew otpStore files :
  get body "mobile" = Some (VStr mobile) →
  let wasVerified :=
    match otpStore !! mobile with Some d => verified d | None => false end in
  let '(resp, otpStore', files') :=
    submit_loan body today iso writeOk emailThrew otpStore files in
  (resp = SubmitNotVerified ↔ wasVerified = false) ∧
  (wasVerified = true → writeOk = true →
     resp = SubmitOk (todayFilename today) (negb emailThrew) ∧
     otpStore' = delete mobile otpStore) ∧
  (wasVerified = true → writeOk = false →
     resp = SubmitError ∧ otpStore' = otpStore ∧ files' = files) ∧
  (wasVerified = false → otpStore' = otpStore ∧ files' = files).
Proof.
  intros Hbody. unfold submit_loan, getByBody, deleteByBody. rewrite Hbody.
  destruct (otpStore !! mobile) as [d |]; simpl.
  - destruct (verified d); simpl.
    + destruct writeOk.
      * rewrite appendToDailyExcel_writes. repeat split; done.
      * rewrite appendToDailyExcel_write_fails. repeat split; done.
    + repeat split; done.
  - repeat split; done.
Qed.

Lemma consume_deletes_after_successful_append_witness :
  let wasVerified :=
    match checked !! mobile1 with Some d => verified d | None => false end in
  let '(resp, otpStore', files') := submit_loan body1 day1 "T" true false checked ∅ in
  (resp = SubmitNotVerified ↔ wasVerified = false) ∧
  (wasVerified = true → true = true →
     resp = SubmitOk (todayFilename day1) (negb false) ∧
     otpStore' = delete mobile1 checked) ∧
  (wasVerified = true → true = false →
     resp = SubmitError ∧ otpStore' = checked ∧ files' = ∅) ∧
  (wasVerified = false → otpStore' = checked ∧ files' = ∅).
Proof.
  apply (consume_deletes_after_successful_append
           body1 mobile1 day1 "T" true false checked ∅).
  reflexivity.
Defined.

(** C5, as stated, fails: a submission for an identifier whose record is
    not verified is refused and the record stays in the store; and a
    verified record stays when the ledger write fails. *)
Lemma consume_keeps_record :
  (let '(resp, otpStore', _) := submit_loan body1 day1 "T" true false issued ∅ in
   resp = SubmitNotVerified ∧ otpStore' !! mobile1 = Some record1) ∧
  (let '(resp, otpStore', _) := submit_loan body1 day1 "T" false false checked ∅ in
   resp = SubmitError ∧ otpStore' !! mobile1 = Some (markVerified record1)).
Proof. split; vm_compute; split; reflexivity. Qed.

End SubmissionClaims.

(** ** Notification dispatcher *)

Section GateFacts.

Variable limit : Z.
Hypothesis limit_pos : 1 <= limit.

Lemma gateInv_idle : gateInv limit idle.
Proof using limit_pos. split; simpl; [lia | done]. Qed.

Lemma acquireEmailSlot_inv me g :
  gateInv limit g → gateInv limit (fst (acquireEmailSlot limit me g)).
Proof using limit_pos.
  intros [Hb Hq]. unfold acquireEmailSlot.
  destruct (Z.ltb_spec (emailActive g) limit) as [Hlt | Hge]; split; simpl.
  - lia.
  - intros Hne. specialize (Hq Hne). lia.
  - lia.
  - intros _. lia.
Qed.

Lemma releaseEmailSlot_inv g : gateInv limit g → gateInv limit (fst (releaseEmailSlot g)).
Proof using limit_pos.
  intros [Hb Hq]. unfold releaseEmailSlot.
  destruct (emailQueue g) as [| next queue] eqn:E.
  - split; simpl; [lia | done].
  - assert (emailActive g = limit) by (apply Hq; done).
    split; simpl; [lia |]. intros _. lia.
Qed.

Lemma gateRun_inv calls g : gateInv limit g → gateInv limit (gateRun limit calls g).
Proof using limit_pos.
  revert g. induction calls as [| c calls IH]; intros g Hg; [done |].
  simpl. apply IH. destruct c; simpl.
  - by apply acquireEmailSlot_inv.
  - by apply releaseEmailSlot_inv.
Qed.

(** With a waiter and a held slot, a release resumes the head of the
    queue and leaves the counter as it is. *)
Lemma releaseEmailSlot_hands_over g next queue :
  1 <= emailActive g →
  emailQueue g = next :: queue →
  releaseEmailSlot g =
    ({| emailActive := emailActive g; emailQueue := queue |}, Some next).
Proof.
  intros Hpos E. unfold releaseEmailSlot. rewrite E.
  do 2 f_equal. lia.
Qed.

(** Waiters leave the queue in the order they entered it. *)
Lemma gate_fifo calls g :
  emailQueue g ++ queuedBy limit calls g
  = resumedBy limit calls g ++ emailQueue (gateRun limit calls g).
Proof.
  revert g. induction calls as [| c calls IH]; intros g; simpl.
  - by rewrite app_nil_r.
  - destruct c as [me |]; simpl.
    + rewrite <- IH. unfold acquireEmailSlot.
      destruct (emailActive g <? limit); simpl; [done |].
      by rewrite <- app_assoc.
    + rewrite <- app_assoc, <- IH. unfold releaseEmailSlot.
      destruct (emailQueue g) as [| next queue]; simpl; done.
Qed.

End GateFacts.

Section LimiterFacts.

Variable maximum : Z.

Lemma removeOne_length (me : nat) (l : list nat) :
  existsb (Nat.eqb me) l = true → S (length (removeOne me l)) = length l.
Proof.
  induction l as [| x l IH]; simpl; [discriminate |].
  rewrite (Nat.eqb_sym me x). destruct (Nat.eqb x me); simpl; [done |].
  intros H. by rewrite IH.
Qed.

Lemma limiterStep_inv (s s' : limiter) (ev : gateEvent) :
  limiterInv maximum s →
  limiterStep maximum s ev = Some s' →
  limiterInv maximum s'.
Proof.
  intros (Hcount & Hmax & Hfull & Hfifo). destruct ev as [me | me]; simpl.
  - unfold acquireEmailSlot.
    destruct (Z.ltb_spec (emailActive (slots s)) maximum) as [Hlt | Hge];
      intros [= <-]; unfold limiterInv; simpl.
    + rewrite length_app. simpl. split; [lia |]. split; [lia |]. split; [| done].
      intros Hq. specialize (Hfull Hq). lia.
    + split; [done |]. split; [done |]. split; [intros _; lia |].
      by rewrite Hfifo, app_assoc.
  - destruct (existsb (Nat.eqb me) (inFlight s)) eqn:Hin; [| discriminate].
    pose proof (removeOne_length me (inFlight s) Hin) as Hlen.
    unfold releaseEmailSlot. destruct (emailQueue (slots s)) as [| next queue] eqn:Eq;
      intros [= <-]; unfold limiterInv; simpl.
    + rewrite app_nil_r. split; [lia |]. split; [lia |]. split; [done |].
      by rewrite !app_nil_r in *.
    + rewrite length_app. simpl.
      assert (Z.of_nat (length (inFlight s)) = Z.max 0 maximum) as Hall by (by apply Hfull).
      split; [lia |]. split; [lia |]. split; [intros _; lia |].
      by rewrite Hfifo, <- app_assoc.
Qed.

Lemma limiterRun_inv (events : list gateEvent) :
  ∀ s s', limiterInv maximum s →
          limiterRun maximum events s = Some s' →
          limiterInv maximum s'.
Proof.
  induction events as [| ev events IH]; intros s s' Hinv; simpl.
  - by intros [= <-].
  - destruct (limiterStep maximum s ev) as [s1 |] eqn:E; [| discriminate].
    apply IH. by eapply limiterStep_inv.
Qed.

Lemma limiterInv_idle : limiterInv maximum limiterIdle.
Proof. unfold limiterInv. simpl. repeat split; try done. lia. Qed.

End LimiterFacts.

(** C7: from the idle limiter, for any configured maximum and after any
    sequence in which callers ask for a slot and callers that hold one
    release it, the callers in flight never outnumber the maximum (under
    a negative maximum there are none), and the counter is their number;
    whenever a caller waits, all slots are taken; the callers still
    waiting are those queued and not yet resumed, in the order they were
    queued; and when a caller in flight settles while callers wait, the
    head of the queue (the one waiting longest) takes its place at once,
    the others keeping their order. *)
Theorem gate_bounded_fifo (maximum : Z) (events : list gateEvent) (s : limiter) :
  limiterRun maximum events limiterIdle = Some s →
  Z.of_nat (length (inFlight s)) <= Z.max 0 maximum ∧
  emailActive (slots s) = Z.of_nat (length (inFlight s)) ∧
  (emailQueue (slots s) ≠ [] → Z.of_nat (length (inFlight s)) = Z.max 0 maximum) ∧
  waited s = resumed s ++ emailQueue (slots s) ∧
  (∀ me next queue,
     In me (inFlight s) →
     emailQueue (slots s) = next :: queue →
     ∃ s',
       limiterStep maximum s (Settles me) = Some s' ∧
       emailQueue (slots s') = queue ∧
       inFlight s' = removeOne me (inFlight s) ++ [next] ∧
       resumed s' = resumed s ++ [next] ∧
       Z.of_nat (length (inFlight s')) = Z.max 0 maximum).
Proof.
  intros Hrun.
  destruct (limiterRun_inv maximum events _ _ (limiterInv_idle maximum) Hrun)
    as (Hcount & Hmax & Hfull & Hfifo).
  split; [done |]. split; [done |]. split; [done |]. split; [done |].
  intros me next queue Hin Hq.
  assert (existsb (Nat.eqb me) (inFlight s) = true) as Hex.
  { apply existsb_exists. exists me. split; [done | apply Nat.eqb_refl]. }
  simpl. rewrite Hex. unfold releaseEmailSlot. rewrite Hq.
  eexists. split; [reflexivity |]. simpl. repeat split.
  rewrite length_app. simpl.
  pose proof (removeOne_length me (inFlight s) Hex).
  assert (Z.of_nat (length (inFlight s)) = Z.max 0 maximum) by (apply Hfull; by rewrite Hq).
  lia.
Qed.

Lemma gate_bounded_fifo_witness :
  ∃ s,
    limiterRun 2 Samples.rush limiterIdle = Some s ∧
    inFlight s = [3; 4]%nat ∧ emailQueue (slots s) = [5%nat] ∧
    Z.of_nat (length (inFlight s)) <= Z.max 0 2 ∧
    emailActive (slots s) = Z.of_nat (length (inFlight s)) ∧
    (emailQueue (slots s) ≠ [] → Z.of_nat (length (inFlight s)) = Z.max 0 2) ∧
    waited s = resumed s ++ emailQueue (slots s) ∧
    (∀ me next queue,
       In me (inFlight s) →
       emailQueue (slots s) = next :: queue →
       ∃ s',
         limiterStep 2 s (Settles me) = Some s' ∧
         emailQueue (slots s') = queue ∧
         inFlight s' = removeOne me (inFlight s) ++ [next] ∧
         resumed s' = resumed s ++ [next] ∧
         Z.of_nat (length (inFlight s')) = Z.max 0 2).
Proof.
  eexists. split; [reflexivity |]. split; [reflexivity |]. split; [reflexivity |].
  apply (gate_bounded_fifo 2 Samples.rush). reflexivity.
Defined.

Example burst_run :
  gateRun 2 Samples.burst idle = {| emailActive := 2; emailQueue := [5%nat] |}
  ∧ queuedBy 2 Samples.burst idle = [3; 4; 5]%nat
  ∧ resumedBy 2 Samples.burst idle = [3; 4]%nat.
Proof. vm_compute. done. Qed.

Section RetryFacts.

Variable sendMail : nat → mailResult.

(** The loop stops at the first accepted call, having slept after each
    rejected one. *)
Lemma sendLoop_success (k : nat) :
  ∀ (remaining i : nat) (lastErr : option string) (info : string),
    (k < remaining)%nat →
    (∀ j, (j < k)%nat → ∃ e, sendMail (i + j) = Rejected e) →
    sendMail (i + k) = Sent info →
    sendLoop sendMail remaining i lastErr
    = (RetryOk info, failedAttempts i k ++ [SendMail (i + k)%nat]).
Proof.
  induction k as [| k IH]; intros remaining i lastErr info Hlt Hrej Hok.
  - destruct remaining as [| r]; [lia |]. simpl.
    rewrite Nat.add_0_r in Hok. rewrite Hok. by rewrite Nat.add_0_r.
  - destruct remaining as [| r]; [lia |]. simpl.
    destruct (Hrej 0%nat ltac:(lia)) as [e He]. rewrite Nat.add_0_r in He.
    rewrite He.
    rewrite (IH r (S i) (Some e) info); [| lia | | ].
    + unfold failedAttempts. simpl. by rewrite Nat.add_succ_r.
    + intros j Hj. destruct (Hrej (S j) ltac:(lia)) as [e' He'].
      exists e'. by rewrite Nat.add_succ_r in He'.
    + by rewrite Nat.add_succ_r in Hok.
Qed.

(** When every call is rejected the loop runs all its iterations and
    keeps the error of the last one. *)
Lemma sendLoop_failure (remaining : nat) :
  ∀ (i : nat) (lastErr : option string) (e : string),
    (0 < remaining)%nat →
    (∀ j, (j < remaining)%nat → ∃ e', sendMail (i + j) = Rejected e') →
    sendMail (i + remaining - 1) = Rejected e →
    sendLoop sendMail remaining i lastErr
    = (RetryFailed (Some e), failedAttempts i remaining).
Proof.
  induction remaining as [| r IH]; intros i lastErr e Hpos Hrej Hlast; [lia |].
  simpl. destruct (Hrej 0%nat ltac:(lia)) as [e0 He0].
  rewrite Nat.add_0_r in He0. rewrite He0.
  destruct r as [| r'].
  - simpl. replace (i + 1 - 1)%nat with i in Hlast by lia.
    rewrite He0 in Hlast. injection Hlast as ->. reflexivity.
  - rewrite (IH (S i) (Some e0) e); [| lia | | ].
    + reflexivity.
    + intros j Hj. destruct (Hrej (S j) ltac:(lia)) as [e' He'].
      exists e'. by rewrite Nat.add_succ_r in He'.
    + replace (S i + S r' - 1)%nat with (i + S (S r') - 1)%nat by lia. done.
Qed.

End RetryFacts.

(** C8: an admitted send (it holds a slot, so the counter is at least
    1 when it settles) calls the transport at most [attempts] times.  If
    call [k] (counted from 0, [k < attempts]) is the first accepted one,
    the send stops there and reports success, having slept
    [2^i * 1000] ms after each failed attempt [i < k].  If all [attempts]
    calls are rejected it reports failure with the last error, having
    slept [2^i * 1000] ms after each attempt [i].  In every case its
    slot is given up: with nobody waiting the counter goes down by one,
    otherwise the longest-waiting caller is resumed in its place. *)
Theorem retry_then_release
    (DATA_DIR : string) (sendMail : nat → mailResult) (attempts : nat)
    (date : jsdate) (g : gate) :
  1 <= emailActive g →
  let '(answer, tr, released) := dispatchAdmitted DATA_DIR sendMail attempts date g in
  match emailQueue g with
  | [] =>
      released = ({| emailActive := emailActive g - 1; emailQueue := [] |}, None)
  | next :: queue =>
      released = ({| emailActive := emailActive g; emailQueue := queue |}, Some next)
  end ∧
  (∀ k info,
     (k < attempts)%nat →
     (∀ j, (j < k)%nat → ∃ e, sendMail j = Rejected e) →
     sendMail k = Sent info →
     answer = Delivered (DATA_DIR +:+ "/" +:+ todayFilename date) info ∧
     tr = failedAttempts 0 k ++ [SendMail k]) ∧
  (∀ e,
     (0 < attempts)%nat →
     (∀ j, (j < attempts)%nat → ∃ e', sendMail j = Rejected e') →
     sendMail (attempts - 1)%nat = Rejected e →
     answer = DispatchFailed e ∧ tr = failedAttempts 0 attempts).
Proof.
  intros Hheld. unfold dispatchAdmitted, sendWithRetry.
  destruct (sendLoop sendMail attempts 0 None) as [result tr] eqn:E.
  split; [| split].
  - unfold releaseEmailSlot. destruct (emailQueue g) as [| next queue].
    + do 2 f_equal. lia.
    + do 2 f_equal. lia.
  - intros k info Hk Hrej Hok.
    rewrite (sendLoop_success sendMail k attempts 0 None info Hk Hrej Hok) in E.
    injection E as <- <-. done.
  - intros e Hpos Hrej Hlast.
    rewrite (sendLoop_failure sendMail attempts 0 None e Hpos Hrej Hlast) in E.
    injection E as <- <-. done.
Qed.

Lemma retry_then_release_witness :
  fst (fst (dispatchAdmitted Samples.dataDir Samples.flaky 3 Samples.day1 Samples.oneInFlight))
    = Delivered "/srv/credbazar/server/data/2026-01-05.xlsx" "250 OK"
  ∧ snd (fst (dispatchAdmitted Samples.dataDir Samples.flaky 3 Samples.day1 Samples.oneInFlight))
    = [SendMail 0; Sleep 1000; SendMail 1; Sleep 2000; SendMail 2]
  ∧ snd (dispatchAdmitted Samples.dataDir Samples.flaky 3 Samples.day1 Samples.oneInFlight)
    = (idle, None).
Proof.
  pose proof (retry_then_release Samples.dataDir Samples.flaky 3 Samples.day1
                Samples.oneInFlight ltac:(simpl; lia)) as H.
  destruct (dispatchAdmitted Samples.dataDir Samples.flaky 3 Samples.day1 Samples.oneInFlight)
    as [[answer tr] released].
  destruct H as (Hrel & Hok & _).
  destruct (Hok 2%nat "250 OK") as [Ha Ht].
  - lia.
  - intros [| [| j]] Hj; [by eexists | by eexists | lia].
  - reflexivity.
  - simpl. rewrite Ha, Ht. simpl in Hrel. rewrite Hrel. repeat split.
Defined.

(** ** Ledger manager *)

Section LedgerFacts.

Import Samples.

Implicit Types (files : gmap string workbook) (ws : worksheet) (wb : workbook).

(** A successful append replaces the file of the date by the fresh sheet
    of the record. *)
Lemma appendMany_last date submissions record iso files :
  appendMany date (submissions ++ [(record, iso)]) files
  = <[todayFilename date := [freshSheet record iso]]> (appendMany date submissions files).
Proof.
  unfold appendMany. rewrite fold_left_app. cbn [fold_left fst snd].
  by rewrite appendToDailyExcel_writes.
Qed.

(** C1 (code bug): after any number of successful appends to one date
    the file holds the sheet written by the last append alone, which has
    exactly one data row; two appends leave one data row, not two. *)
Theorem append_keeps_only_last_row date submissions record iso files :
  appendMany date (submissions ++ [(record, iso)]) files !! todayFilename date
    = Some [freshSheet record iso]
  ∧ length (dataRows (freshSheet record iso)) = 1%nat
  ∧ ∃ ws, appendMany day1 [(record2, "T1"); (record3, "T2")] ∅ !! todayFilename day1
          = Some [ws]
          ∧ dataRows ws = [[Some (VStr "Pune"); Some (VStr "T2")]].
Proof.
  split; [| split].
  - rewrite appendMany_last. apply lookup_insert_eq.
  - reflexivity.
  - eexists. split; reflexivity.
Qed.

(** C2 (code bug): whatever the file of the date holds, a successful
    append leaves a sheet whose header is the trimmed, non-empty keys of
    the appended row followed by [added_at].  So a file with header
    [LoanAmount, Mobile, added_at] and one data row, appended with a row
    that has the new field [City], ends with header [City, added_at] and
    that row alone: the old columns and the old row are gone. *)
Theorem append_discards_existing_header :
  (∀ record date iso files,
     ∃ files',
       appendToDailyExcel record date iso true files = Some (todayFilename date, files') ∧
       files' !! todayFilename date = Some [freshSheet record iso] ∧
       getRow 1 (freshSheet record iso)
       = headerCells (List.filter nonEmptyString (map trim (keys record)) ++ ["added_at"]))
  ∧ ∃ files1 files2 ws1 ws2,
      appendToDailyExcel record2 day1 "T1" true ∅ = Some (todayFilename day1, files1) ∧
      files1 !! todayFilename day1 = Some [ws1] ∧
      header ws1 = headerCells ["LoanAmount"; "Mobile"; "added_at"] ∧
      dataRows ws1 = [[Some (VNum 50000); Some (VStr "9999999999"); Some (VStr "T1")]] ∧
      appendToDailyExcel record3 day1 "T2" true files1 = Some (todayFilename day1, files2) ∧
      files2 !! todayFilename day1 = Some [ws2] ∧
      header ws2 = headerCells ["City"; "added_at"] ∧
      dataRows ws2 = [[Some (VStr "Pune"); Some (VStr "T2")]].
Proof.
  split.
  - intros record date iso files. eexists. split; [apply appendToDailyExcel_writes |].
    split; [apply lookup_insert_eq | reflexivity].
  - do 4 eexists. repeat split; reflexivity.
Qed.

(** The disabled branch, had it run on that file, would put the new
    column after [added_at]. *)
Example reconcileSheet_new_column_last :
  ∃ ws, reconcileSheet record3 "T2" [freshSheet record2 "T1"] = Some [ws]
        ∧ header ws = headerCells ["LoanAmount"; "Mobile"; "added_at"; "City"]
        ∧ dataRows ws
          = [[Some (VNum 50000); Some (VStr "9999999999"); Some (VStr "T1"); Some (VStr "")];
             [Some (VStr ""); Some (VStr ""); Some (VStr "T2"); Some (VStr "Pune")]].
Proof. eexists. repeat split; reflexivity. Qed.

End LedgerFacts.

Section RepairFacts.

Import Samples.

Implicit Types (files : gmap string workbook) (ws : worksheet) (wb : workbook).

Lemma values_cons_Some (v : jsval) (r : row) :
  values (Some v :: r) = Some v :: values r.
Proof. simpl. by destruct (values r). Qed.

Lemma filter_head_true {A : Type} (p : A → bool) (l : list A) (h : A) (t : list A) :
  List.filter p l = h :: t → p h = true.
Proof.
  intros E. assert (In h (List.filter p l)) as Hin by (rewrite E; by left).
  apply filter_In in Hin. tauto.
Qed.

(** When some header cell is not blank, the rebuilt sheet starts with a
    header row whose first name is not empty. *)
Lemma rebuildSheet_header ws :
  someHeaderNonBlank ws = true →
  ∃ h t, nonEmptyString h = true ∧ getRow 1 (rebuildSheet ws) = headerCells (h :: t).
Proof.
  unfold someHeaderNonBlank, header. intros Hnb.
  apply existsb_exists in Hnb. destruct Hnb as (v & Hin & Hv).
  unfold rebuildSheet.
  destruct (List.filter nonEmptyString
              (map (λ v0, trim (toString v0)) (omap id (values (getRow 1 ws)))))
    as [| h t] eqn:Ef.
  - exfalso.
    assert (In (trim (toString v)) []) as Hin'; [| done].
    rewrite <- Ef. apply filter_In. split; [| done].
    by apply (in_map (λ v0, trim (toString v0))).
  - exists h, t. split; [| done]. by eapply filter_head_true.
Qed.

Lemma secondHeaderNonBlank_some ws :
  secondHeaderNonBlank ws = true → someHeaderNonBlank ws = true.
Proof.
  unfold secondHeaderNonBlank, someHeaderNonBlank.
  destruct (header ws !! 1%nat) as [[v |] |] eqn:E; try discriminate.
  intros Hnb. apply existsb_exists. exists v. split; [| done].
  apply list_elem_of_In, list_elem_of_omap.
  exists (Some v). split; [| done]. by eapply list_elem_of_lookup_2.
Qed.

Lemma rebuildSheet_first_cell ws :
  someHeaderNonBlank ws = true →
  emptyCell (header (rebuildSheet ws) !! 0%nat) = false.
Proof.
  intros Hnb. destruct (rebuildSheet_header ws Hnb) as (h & t & Hh & E).
  unfold header. rewrite E. simpl headerCells. rewrite values_cons_Some. simpl.
  unfold nonEmptyString in Hh. by apply negb_true_iff in Hh.
Qed.

Lemma rebuildSheet_headerFirstNonEmpty ws :
  someHeaderNonBlank ws = true → headerFirstNonEmpty (rebuildSheet ws) = true.
Proof.
  intros Hnb. unfold headerFirstNonEmpty. by rewrite rebuildSheet_first_cell.
Qed.

Lemma rebuildSheet_not_shifted ws :
  someHeaderNonBlank ws = true → isShifted (rebuildSheet ws) = false.
Proof.
  intros Hnb. pose proof (rebuildSheet_first_cell ws Hnb) as E.
  unfold header in E. unfold isShifted, shiftedHeader. by rewrite E.
Qed.

Lemma existsb_isShifted_false wb :
  Forall (λ ws, isShifted ws = false) wb → existsb isShifted wb = false.
Proof. induction 1 as [| ws wb Hws _ IH]; [done |]. simpl. by rewrite Hws, IH. Qed.

Lemma existsb_isShifted_true wb :
  Exists (λ ws, isShifted ws = true) wb → existsb isShifted wb = true.
Proof.
  induction 1 as [ws wb Hws | ws wb _ IH]; simpl.
  - by rewrite Hws.
  - rewrite IH. apply orb_true_r.
Qed.

(** The sheets of a repaired workbook: those left in place do not show
    the pattern, and neither do the rebuilt ones when some header cell
    of each source sheet was not blank. *)
Lemma repairWorkbook_not_shifted wb :
  Forall (λ ws, isShifted ws = true → someHeaderNonBlank ws = true) wb →
  Forall (λ ws, isShifted ws = false) (snd (repairWorkbook wb)).
Proof.
  intros Hall. unfold repairWorkbook. simpl. apply Forall_app. split.
  - apply List.Forall_forall. intros ws Hin. apply filter_In in Hin.
    destruct Hin as [_ Hn]. by apply negb_true_iff in Hn.
  - apply List.Forall_forall. intros ws' Hin. apply in_map_iff in Hin.
    destruct Hin as (ws & <- & Hin). apply filter_In in Hin. destruct Hin as [Hin Hs].
    apply rebuildSheet_not_shifted.
    rewrite List.Forall_forall in Hall. by apply Hall.
Qed.

(** C3 (amended): for a file without the pattern (no sheet has an empty
    or missing first header cell and a truthy second one),
    [repairXlsxFile] reports no change and does not write: the call
    succeeds and leaves the directory as it is even when the file cannot
    be written.  For a file with the pattern it reports a change and
    rewrites the file (the call throws when the file cannot be written).
    When some header cell of each sheet with the pattern is not blank,
    the first header cell of every rebuilt sheet is non-empty, and a
    second run reports no change and writes nothing. *)
Theorem repair_targeted_idempotent (filePath : string) files wb :
  files !! filePath = Some wb →
  (Forall (λ ws, isShifted ws = false) wb →
     ∀ writeOk, repairXlsxFile filePath writeOk files = Some (false, files)) ∧
  (Exists (λ ws, isShifted ws = true) wb →
     ∃ wb',
       repairXlsxFile filePath true files = Some (true, <[filePath := wb']> files) ∧
       repairXlsxFile filePath false files = None ∧
       wb' = List.filter (λ ws, negb (isShifted ws)) wb
             ++ map rebuildSheet (List.filter isShifted wb) ∧
       (Forall (λ ws, isShifted ws = true → someHeaderNonBlank ws = true) wb →
          Forall (λ ws, headerFirstNonEmpty ws = true)
            (map rebuildSheet (List.filter isShifted wb)) ∧
          ∀ writeOk,
            repairXlsxFile filePath writeOk (<[filePath := wb']> files)
            = Some (false, <[filePath := wb']> files))).
Proof.
  intros Hget. split.
  - intros Hnone writeOk. unfold repairXlsxFile. rewrite Hget. unfold repairWorkbook.
    by rewrite (existsb_isShifted_false wb Hnone).
  - intros Hsome. eexists. split; [| split; [| split; [reflexivity |]]].
    + unfold repairXlsxFile. rewrite Hget. unfold repairWorkbook.
      by rewrite (existsb_isShifted_true wb Hsome).
    + unfold repairXlsxFile. rewrite Hget. unfold repairWorkbook.
      by rewrite (existsb_isShifted_true wb Hsome).
    + intros Hall. split.
      * apply List.Forall_forall. intros ws' Hin. apply in_map_iff in Hin.
        destruct Hin as (ws & <- & Hin). apply filter_In in Hin.
        destruct Hin as [Hin Hs]. apply rebuildSheet_headerFirstNonEmpty.
        rewrite List.Forall_forall in Hall. by apply Hall.
      * intros writeOk. unfold repairXlsxFile. rewrite lookup_insert_eq.
        pose proof (repairWorkbook_not_shifted wb Hall) as Hns.
        unfold repairWorkbook in *. simpl in Hns.
        by rewrite (existsb_isShifted_false _ Hns).
Qed.

Lemma repair_targeted_idempotent_witness :
  let files : gmap string workbook := {[ "2026-01-05.xlsx" := [shiftedSheet] ]} in
  let repaired : worksheet :=
    {| name := "submissions";
       rows := [[Some (VStr "LoanAmount"); Some (VStr "added_at")];
                [Some (VNum 50000); Some (VStr "T")]] |} in
  repairXlsxFile "2026-01-05.xlsx" true files
    = Some (true, <["2026-01-05.xlsx" := [repaired]]> files)
  ∧ headerFirstNonEmpty repaired = true
  ∧ repairXlsxFile "2026-01-05.xlsx" false (<["2026-01-05.xlsx" := [repaired]]> files)
    = Some (false, <["2026-01-05.xlsx" := [repaired]]> files).
Proof.
  intros files repaired.
  destruct (repair_targeted_idempotent "2026-01-05.xlsx" files [shiftedSheet])
    as [_ H]; [reflexivity |].
  destruct H as (wb' & Hrun & _ & -> & Hrest).
  { apply Exists_cons_hd. reflexivity. }
  destruct Hrest as [Hfirst Hagain].
  { apply Forall_cons. split; [reflexivity | apply Forall_nil_2]. }
  split; [exact Hrun |]. split; [| exact (Hagain false)].
  by apply Forall_inv in Hfirst.
Defined.

(** C3, as stated, fails: a sheet whose header has no first cell and a
    second cell holding a blank string passes the test, the file is
    rewritten, and the sheet written has no header cell at all. *)
Lemma repair_can_leave_header_empty :
  header blankHeader !! 0%nat = Some None
  ∧ header blankHeader !! 1%nat = Some (Some (VStr " "))
  ∧ ∃ ws files',
      repairXlsxFile "2026-01-05.xlsx" true {[ "2026-01-05.xlsx" := [blankHeader] ]}
        = Some (true, files')
      ∧ files' !! "2026-01-05.xlsx" = Some [ws]
      ∧ header ws = []
      ∧ headerFirstNonEmpty ws = false.
Proof.
  split; [reflexivity |]. split; [reflexivity |].
  do 2 eexists. split; [reflexivity |]. repeat split; reflexivity.
Qed.

(** With a blank header a second run can report a change again: the row
    that moved up to the first line shows the pattern itself. *)
Example repair_blank_header_twice :
  ∃ wb1 wb2,
    repairWorkbook [blankHeaderOneRow] = (true, wb1) ∧
    repairWorkbook wb1 = (true, wb2).
Proof. do 2 eexists. split; reflexivity. Qed.

End RepairFacts.

(** * Further properties of the code *)

(** ** OTP routes *)

Section OtpRoutes.

Import Samples.

Implicit Types (otpStore : gmap string otpRecord) (mobile code : string).

Lemma length_10_inv (s : string) :
  String.length s = 10%nat →
  ∃ c0 c1 c2 c3 c4 c5 c6 c7 c8 c9,
    s = String c0 (String c1 (String c2 (String c3 (String c4 (String c5
          (String c6 (String c7 (String c8 (String c9 EmptyString))))))))).
Proof.
  intros H.
  do 10 (destruct s as [| ? s]; [discriminate H |]).
  destruct s; [| discriminate H]. by do 10 eexists.
Qed.

(** The masked number returned by [send_otp]: six stars and the last
    four digits. *)
Lemma masked_mobile mobile :
  validMobile mobile = true →
  padStart 10 "*" (sliceLast 4 mobile) = "******" +:+ substring 6 4 mobile.
Proof.
  intros Hv. unfold validMobile in Hv. apply andb_true_iff in Hv.
  destruct Hv as [Hlen _]. apply Nat.eqb_eq in Hlen.
  destruct (length_10_inv mobile Hlen)
    as (c0 & c1 & c2 & c3 & c4 & c5 & c6 & c7 & c8 & c9 & ->).
  reflexivity.
Qed.

Lemma send_otp_fresh mobile now u otpStore :
  validMobile mobile = true →
  (∀ d, otpStore !! mobile = Some d → OTP_RESEND_COOLDOWN <= now - timestamp d) →
  send_otp mobile now u otpStore
  = (SendOk ("******" +:+ substring 6 4 mobile),
     <[mobile := issuedRecord u now]> otpStore).
Proof.
  intros Hv Hold. unfold send_otp.
  rewrite (eqb_empty_false _ (validMobile_nonempty _ Hv)), Hv. simpl.
  rewrite (masked_mobile _ Hv).
  destruct (otpStore !! mobile) as [d |] eqn:E; [| reflexivity].
  specialize (Hold d eq_refl).
  destruct (Z.ltb_spec (now - timestamp d) OTP_RESEND_COOLDOWN); [lia | reflexivity].
Qed.

(** Issuing for a valid identifier that has no record, or whose record
    is at least two minutes old, answers with the masked number (six
    stars and the last four digits) and stores a fresh record: zero
    attempts, not verified, stamped [now], in place of any older one,
    whose attempts and verified flag are thereby forgotten. *)
Theorem send_otp_issues mobile now u otpStore :
  validMobile mobile = true →
  (∀ d, otpStore !! mobile = Some d → OTP_RESEND_COOLDOWN <= now - timestamp d) →
  ∃ otpStore',
    send_otp mobile now u otpStore
    = (SendOk ("******" +:+ substring 6 4 mobile), otpStore') ∧
    otpStore' !! mobile
    = Some {| otp := generateOTP 6 u; timestamp := now; attempts := 0; verified := false |} ∧
    ∀ other, other ≠ mobile → otpStore' !! other = otpStore !! other.
Proof.
  intros Hv Hold. eexists. split; [by apply send_otp_fresh |]. split.
  - apply lookup_insert_eq.
  - intros other Hne. by apply lookup_insert_ne.
Qed.

Lemma send_otp_issues_witness :
  ∃ otpStore',
    send_otp mobile1 120000 5 checked
    = (SendOk ("******" +:+ substring 6 4 mobile1), otpStore') ∧
    otpStore' !! mobile1
    = Some {| otp := generateOTP 6 5; timestamp := 120000; attempts := 0; verified := false |} ∧
    ∀ other, other ≠ mobile1 → otpStore' !! other = checked !! other.
Proof.
  apply (send_otp_issues mobile1 120000 5 checked).
  - reflexivity.
  - intros d Hd. change (checked !! mobile1) with (Some (markVerified record1)) in Hd.
    injection Hd as <-. vm_compute. discriminate.
Defined.

(** [verify_otp] removes the record of the identifier exactly when the
    record is older than ten minutes or has three attempts on it, and
    says which of the two it was; in every other case the record stays. *)
Theorem verify_otp_removes_iff mobile code now otpStore d :
  mobile ≠ "" → code ≠ "" →
  otpStore !! mobile = Some d →
  let '(resp, otpStore') := verify_otp mobile code now otpStore in
  (otpStore' !! mobile = None ↔ 600000 < now - timestamp d ∨ 3 <= attempts d) ∧
  (resp = VerifyExpired ↔ 600000 < now - timestamp d) ∧
  (resp = VerifyTooMany ↔ now - timestamp d <= 600000 ∧ 3 <= attempts d).
Proof.
  intros Hm Hc Hget.
  destruct (Z.lt_ge_cases 600000 (now - timestamp d)) as [Hold | Hyoung].
  - rewrite (verify_otp_expired _ _ _ _ _ Hm Hc Hget Hold).
    rewrite lookup_delete_eq.
    repeat split; intros; first [done | lia | by left].
  - destruct (Z.lt_ge_cases (attempts d) 3) as [Hfew | Hmany].
    + rewrite (verify_otp_live _ _ _ _ _ Hm Hc Hget Hyoung Hfew).
      destruct (String.eqb (otp d) (trim code)); rewrite lookup_insert_eq;
        repeat split; intros; first [done | lia].
    + rewrite (verify_otp_exhausted _ _ _ _ _ Hm Hc Hget Hyoung Hmany).
      rewrite lookup_delete_eq.
      repeat split; intros; first [done | lia | by right].
Qed.

Lemma verify_otp_removes_iff_witness :
  let '(resp, otpStore') := verify_otp mobile1 "123456" 600000 issued in
  (otpStore' !! mobile1 = None ↔ 600000 < 600000 - timestamp record1 ∨ 3 <= attempts record1) ∧
  (resp = VerifyExpired ↔ 600000 < 600000 - timestamp record1) ∧
  (resp = VerifyTooMany ↔ 600000 - timestamp record1 <= 600000 ∧ 3 <= attempts record1).
Proof.
  apply (verify_otp_removes_iff mobile1 "123456" 600000 issued record1).
  - discriminate.
  - discriminate.
  - exact issued_lookup.
Defined.

(** A request about one identifier leaves the record of every other
    identifier as it was. *)
Theorem handlers_touch_one_identifier
    mobile other code now u body today iso writeOk emailThrew otpStore files :
  other ≠ mobile →
  snd (send_otp mobile now u otpStore) !! other = otpStore !! other ∧
  snd (verify_otp mobile code now otpStore) !! other = otpStore !! other ∧
  (get body "mobile" = Some (VStr mobile) →
   snd (fst (submit_loan body today iso writeOk emailThrew otpStore files)) !! other
   = otpStore !! other).
Proof.
  intros Hne. split; [| split].
  - unfold send_otp. destruct (String.eqb mobile "" || negb (validMobile mobile)); [done |].
    destruct (otpStore !! mobile) as [d |]; simpl.
    + destruct (now - timestamp d <? OTP_RESEND_COOLDOWN); simpl; [done |].
      by rewrite lookup_insert_ne.
    + by rewrite lookup_insert_ne.
  - unfold verify_otp. destruct (String.eqb mobile "" || String.eqb code ""); [done |].
    destruct (otpStore !! mobile) as [d |]; [| done].
    destruct (now - timestamp d >? 10 * 60 * 1000); simpl.
    { by rewrite lookup_delete_ne. }
    destruct (attempts d >=? 3); simpl.
    { by rewrite lookup_delete_ne. }
    destruct (negb (String.eqb (otp d) (trim code))); simpl; by rewrite lookup_insert_ne.
  - intros Hbody. unfold submit_loan, getByBody, deleteByBody. rewrite Hbody.
    destruct (otpStore !! mobile) as [d |]; [| done].
    destruct (verified d); simpl; [| done].
    destruct (appendToDailyExcel (normalizeRecord body) today iso writeOk files)
      as [[filePath files'] |]; simpl; [| done].
    by rewrite lookup_delete_ne.
Qed.

Lemma handlers_touch_one_identifier_witness :
  snd (send_otp "8888888888" 0 1 issued) !! mobile1 = issued !! mobile1 ∧
  snd (verify_otp "8888888888" "000000" 0 issued) !! mobile1 = issued !! mobile1 ∧
  (get [("mobile", VStr "8888888888")] "mobile" = Some (VStr "8888888888") →
   snd (fst (submit_loan [("mobile", VStr "8888888888")] day1 "T" true false issued ∅))
     !! mobile1 = issued !! mobile1).
Proof.
  apply (handlers_touch_one_identifier "8888888888" mobile1 "000000" 0 1
           [("mobile", VStr "8888888888")] day1 "T" true false issued ∅).
  discriminate.
Defined.

End OtpRoutes.

Section OtpLifeCycle.

Import Samples.

Implicit Types (otpStore : gmap string otpRecord) (files : gmap string workbook).

Lemma trim_digits (s : string) : allDigits s = true → trim s = s.
Proof.
  intros H. unfold trim.
  assert (trimStart s = s) as ->; [| by apply trimEnd_digits].
  destruct s as [| c s]; [done |]. simpl in *.
  apply andb_true_iff in H. destruct H as [Hc _].
  by rewrite (isDigit_not_white c Hc).
Qed.

Lemma send_otp_preserves (P : string → otpRecord → Prop) mobile now u otpStore :
  (validMobile mobile = true → P mobile (issuedRecord u now)) →
  map_Forall P otpStore →
  map_Forall P (snd (send_otp mobile now u otpStore)).
Proof.
  intros Hnew Hall. unfold send_otp.
  destruct (String.eqb mobile "") eqn:E0; simpl; [done |].
  destruct (validMobile mobile) eqn:Ev; simpl; [| done].
  assert (map_Forall P (<[mobile := issuedRecord u now]> otpStore)) as Hins.
  { apply map_Forall_insert_2; [by apply Hnew | done]. }
  destruct (otpStore !! mobile) as [d |]; [| done].
  by destruct (now - timestamp d <? OTP_RESEND_COOLDOWN).
Qed.

(** After any sequence of requests served from the empty store, every
    key of the store is a 10-digit identifier, every stored code is
    non-empty, and every attempt counter lies between 0 and 3. *)
Theorem served_store_invariant (requests : list request) :
  map_Forall
    (λ mobile d, validMobile mobile = true ∧ otp d ≠ "" ∧ 0 <= attempts d <= 3)
    (fst (serveAll requests (∅, ∅))).
Proof.
  set (P := λ (mobile : string) (d : otpRecord),
              validMobile mobile = true ∧ otp d ≠ "" ∧ 0 <= attempts d <= 3).
  assert (∀ st, map_Forall P (fst st) → map_Forall P (fst (serveAll requests st))) as H.
  { induction requests as [| r requests IH]; intros st Hst; [done |].
    simpl. apply IH. destruct r as [mobile now u | mobile code now | body today iso w e]; simpl.
    - apply send_otp_preserves; [| done].
      intros Hv. split; [done |]. split; [apply generateOTP_nonempty | simpl; lia].
    - unfold verify_otp.
      destruct (String.eqb mobile "" || String.eqb code ""); [done |].
      destruct (fst st !! mobile) as [d |] eqn:E; [| done].
      destruct (Hst mobile d E) as (Hv & Hotp & Hatt).
      destruct (now - timestamp d >? 10 * 60 * 1000); simpl.
      { by apply map_Forall_delete. }
      destruct (Z.geb_spec (attempts d) 3); simpl.
      { by apply map_Forall_delete. }
      destruct (negb (String.eqb (otp d) (trim code))); simpl;
        (apply map_Forall_insert_2; [| done]); repeat split; simpl; try done; lia.
    - unfold submit_loan, getByBody, deleteByBody.
      destruct (get body "mobile") as [[m | |] |]; try done.
      destruct (fst st !! m) as [d |]; [| done].
      destruct (verified d); simpl; [| done].
      destruct (appendToDailyExcel (normalizeRecord body) today iso w (snd st))
        as [[filePath files'] |]; simpl; [| done].
      by apply map_Forall_delete. }
  apply H. apply map_Forall_empty.
Qed.

Lemma submit_loan_verified body mobile today iso emailThrew otpStore files d :
  get body "mobile" = Some (VStr mobile) →
  otpStore !! mobile = Some d →
  verified d = true →
  submit_loan body today iso true emailThrew otpStore files
  = (SubmitOk (todayFilename today) (negb emailThrew), delete mobile otpStore,
     <[todayFilename today := [freshSheet (normalizeRecord body) iso]]> files).
Proof.
  intros Hbody Hget Hver. unfold submit_loan, getByBody, deleteByBody.
  rewrite Hbody, Hget, Hver. cbn [negb].
  by rewrite appendToDailyExcel_writes.
Qed.

Lemma submit_loan_absent body mobile today iso writeOk emailThrew otpStore files :
  get body "mobile" = Some (VStr mobile) →
  otpStore !! mobile = None →
  submit_loan body today iso writeOk emailThrew otpStore files
  = (SubmitNotVerified, otpStore, files).
Proof.
  intros Hbody Hget. unfold submit_loan, getByBody. by rewrite Hbody, Hget.
Qed.

(** For every valid identifier and every draw: issue, verify with the
    issued code within ten minutes, submit.  The code is accepted, the
    submission is written to the file of the day, the record is gone
    afterwards, and a second submission for the identifier is refused
    without touching the files. *)
Theorem issue_verify_submit
    mobile u t0 t1 body body' today today' iso iso' emailThrew otpStore files :
  validMobile mobile = true →
  0 <= u →
  (∀ d, otpStore !! mobile = Some d → OTP_RESEND_COOLDOWN <= t0 - timestamp d) →
  t1 - t0 <= 600000 →
  get body "mobile" = Some (VStr mobile) →
  get body' "mobile" = Some (VStr mobile) →
  let '(r0, s0) := send_otp mobile t0 u otpStore in
  let '(r1, s1) := verify_otp mobile (generateOTP 6 u) t1 s0 in
  let '(r2, s2, f2) := submit_loan body today iso true emailThrew s1 files in
  let '(r3, s3, f3) := submit_loan body' today' iso' true emailThrew s2 f2 in
  r1 = VerifyOk ∧
  r2 = SubmitOk (todayFilename today) (negb emailThrew) ∧
  f2 !! todayFilename today = Some [freshSheet (normalizeRecord body) iso] ∧
  s2 !! mobile = None ∧
  r3 = SubmitNotVerified ∧ f3 = f2.
Proof.
  intros Hv Hu Hold Hage Hbody Hbody'.
  pose proof (validMobile_nonempty _ Hv) as Hm.
  assert (allDigits (generateOTP 6 u) = true) as Hdig.
  { apply generateOTP_digits. change (10 ^ (6 - 1)) with 100000. lia. }
  rewrite (send_otp_fresh _ _ _ _ Hv Hold).
  rewrite (verify_otp_live mobile (generateOTP 6 u) t1 _ (issuedRecord u t0) Hm
             (generateOTP_nonempty 6 u) ltac:(apply lookup_insert_eq)
             ltac:(simpl; lia) ltac:(simpl; lia)).
  simpl otp. rewrite (trim_digits _ Hdig), String.eqb_refl, insert_insert_eq.
  rewrite (submit_loan_verified body mobile today iso emailThrew _ files
             (markVerified (issuedRecord u t0)) Hbody
             ltac:(apply lookup_insert_eq) eq_refl).
  rewrite delete_insert_eq.
  rewrite (submit_loan_absent body' mobile today' iso' true emailThrew _ _ Hbody'
             ltac:(apply lookup_delete_eq)).
  repeat split; try done.
  - apply lookup_insert_eq.
  - apply lookup_delete_eq.
Qed.

Lemma issue_verify_submit_witness :
  let '(r0, s0) := send_otp mobile1 0 23456 ∅ in
  let '(r1, s1) := verify_otp mobile1 (generateOTP 6 23456) 60000 s0 in
  let '(r2, s2, f2) := submit_loan body1 day1 "T1" true false s1 ∅ in
  let '(r3, s3, f3) := submit_loan body1 day1 "T2" true false s2 f2 in
  r1 = VerifyOk ∧
  r2 = SubmitOk (todayFilename day1) (negb false) ∧
  f2 !! todayFilename day1 = Some [freshSheet (normalizeRecord body1) "T1"] ∧
  s2 !! mobile1 = None ∧
  r3 = SubmitNotVerified ∧ f3 = f2.
Proof.
  apply (issue_verify_submit mobile1 23456 0 60000 body1 body1 day1 day1 "T1" "T2" false ∅ ∅).
  - reflexivity.
  - lia.
  - intros d Hd. rewrite lookup_empty in Hd. discriminate Hd.
  - lia.
  - reflexivity.
  - reflexivity.
Defined.

End OtpLifeCycle.

(** ** Decimal strings: codes and file names *)

Section DecimalStrings.

Import Samples.

Lemma of_uint_acc_bounds (d : Decimal.uint) :
  ∀ acc : positive,
    Z.pos acc * 10 ^ Z.of_nat (Decimal.nb_digits d)
    <= Z.pos (Pos.of_uint_acc d acc)
    < (Z.pos acc + 1) * 10 ^ Z.of_nat (Decimal.nb_digits d).
Proof.
  induction d as [| d IH | d IH | d IH | d IH | d IH | d IH | d IH | d IH | d IH | d IH];
    intros acc; cbn [Pos.of_uint_acc Decimal.nb_digits];
    [ rewrite Z.pow_0_r; lia | .. ];
    rewrite Nat2Z.inj_succ, Z.pow_succ_r by lia;
    match goal with
    | |- context [Pos.of_uint_acc d ?a] => specialize (IH a)
    end;
    assert (0 < 10 ^ Z.of_nat (Decimal.nb_digits d)) by (apply Z.pow_pos_nonneg; lia);
    nia.
Qed.

Lemma string_of_uint_length (d : Decimal.uint) :
  String.length (NilEmpty.string_of_uint d) = Decimal.nb_digits d.
Proof. induction d; simpl; congruence. Qed.

(** The decimal digits of a positive number start with a digit from 1
    to 9, the accumulator of the remaining digits. *)
Lemma to_uint_head (p : positive) :
  ∃ (k : positive) (l : Decimal.uint),
    (k <= 9)%positive ∧ p = Pos.of_uint_acc l k ∧
    Decimal.nb_digits (Pos.to_uint p) = S (Decimal.nb_digits l) ∧
    ∃ c s, NilEmpty.string_of_uint (Pos.to_uint p) = String c s ∧ c ≠ "0"%char.
Proof.
  pose proof (DecimalPos.Unsigned.of_to p) as Hof.
  pose proof (DecimalPos.Unsigned.to_of (Pos.to_uint p)) as Hto.
  rewrite Hof in Hto. simpl in Hto.
  pose proof (DecimalPos.Unsigned.to_uint_nonzero p) as Hnz.
  destruct (Pos.to_uint p) as [| l | l | l | l | l | l | l | l | l | l] eqn:E;
    [ discriminate Hof | | .. ].
  1: { exfalso. rewrite DecimalFacts.unorm_D0 in Hto.
       destruct l as [| | | | | | | | | |] eqn:El; [by apply Hnz | ..];
         (pose proof (DecimalFacts.nb_digits_unorm l) as Hlen; rewrite El in Hlen;
          rewrite <- Hto in Hlen at 1; simpl in Hlen;
          specialize (Hlen ltac:(discriminate)); lia). }
  all: simpl in Hof; injection Hof as <-;
    eexists _, l; (split; [| split; [reflexivity | split; [done | by eexists _, _]]]); lia.
Qed.

Lemma string_of_Z_pos (p : positive) :
  string_of_Z (Z.pos p) = NilEmpty.string_of_uint (Pos.to_uint p).
Proof.
  unfold string_of_Z. simpl. unfold NilZero.string_of_uint.
  pose proof (DecimalPos.Unsigned.to_uint_nonnil p). by destruct (Pos.to_uint p).
Qed.

(** A number with [m + 1] decimal digits is printed on [m + 1] characters. *)
Lemma string_of_Z_length (z : Z) (m : nat) :
  10 ^ Z.of_nat m <= z < 10 ^ Z.of_nat (S m) →
  String.length (string_of_Z z) = S m.
Proof.
  intros [Hlo Hhi].
  assert (0 < 10 ^ Z.of_nat m) by (apply Z.pow_pos_nonneg; lia).
  destruct z as [| p | p]; [lia | | lia].
  rewrite string_of_Z_pos, string_of_uint_length.
  destruct (to_uint_head p) as (k & l & Hk & Hp & Hn & _).
  rewrite Hn. f_equal.
  pose proof (of_uint_acc_bounds l k) as Hb. rewrite <- Hp in Hb.
  destruct (Nat.lt_trichotomy (Decimal.nb_digits l) m) as [Hlt | [Heq | Hgt]]; [| done |].
  - exfalso.
    assert (10 ^ Z.of_nat (S (Decimal.nb_digits l)) <= 10 ^ Z.of_nat m)
      by (apply Z.pow_le_mono_r; lia).
    rewrite Nat2Z.inj_succ, Z.pow_succ_r in * by lia. nia.
  - exfalso.
    assert (10 ^ Z.of_nat (S m) <= 10 ^ Z.of_nat (Decimal.nb_digits l))
      by (apply Z.pow_le_mono_r; lia).
    nia.
Qed.

Lemma string_of_Z_head (z : Z) :
  0 < z → ∃ c s, string_of_Z z = String c s ∧ c ≠ "0"%char.
Proof.
  intros Hz. destruct z as [| p | p]; [lia | | lia].
  rewrite string_of_Z_pos.
  by destruct (to_uint_head p) as (_ & _ & _ & _ & _ & H).
Qed.

Lemma string_of_Z_digits (z : Z) : 0 <= z → allDigits (string_of_Z z) = true.
Proof.
  intros Hz. destruct z as [| p | p]; [done | | lia].
  rewrite string_of_Z_pos. apply string_of_uint_digits.
Qed.

Lemma string_of_Z_inj (n m : Z) : string_of_Z n = string_of_Z m → n = m.
Proof.
  unfold string_of_Z. intros H.
  apply DecimalZ.to_int_inj.
  assert (∀ z, Z.to_int z ≠ Decimal.Pos Decimal.Nil
               ∧ Z.to_int z ≠ Decimal.Neg Decimal.Nil) as Hnn.
  { intros [| p | p]; simpl; split; try discriminate;
      intros [= E]; by apply (DecimalPos.Unsigned.to_uint_nonnil p). }
  pose proof (NilZero.isi (Z.to_int n) (proj1 (Hnn n)) (proj2 (Hnn n))) as Hn.
  pose proof (NilZero.isi (Z.to_int m) (proj1 (Hnn m)) (proj2 (Hnn m))) as Hm.
  rewrite H in Hn. congruence.
Qed.

(** For a length [1 <= len <= 15] and draws [0 <= u, u' < 9 * 10^(len-1)],
    the number [generateOTP] prints is below [2^53] (so the code computes
    it exactly and prints it in plain decimal), its code has exactly [len]
    characters, all digits, the first not 0; and two draws that give the
    same code are equal. *)
Theorem generateOTP_fixed_length (len u u' : Z) :
  1 <= len <= 15 →
  0 <= u < 9 * 10 ^ (len - 1) →
  0 <= u' < 9 * 10 ^ (len - 1) →
  10 ^ (len - 1) + u < 2 ^ 53 ∧
  String.length (generateOTP len u) = Z.to_nat len ∧
  allDigits (generateOTP len u) = true ∧
  (∃ c s, generateOTP len u = String c s ∧ c ≠ "0"%char) ∧
  (generateOTP len u = generateOTP len u' → u = u').
Proof.
  intros Hlen Hu Hu'. unfold generateOTP.
  assert (0 < 10 ^ (len - 1)) as Hpow by (apply Z.pow_pos_nonneg; lia).
  split; [| split; [| split; [| split]]].
  - assert (10 ^ (len - 1) <= 10 ^ 14) as Hle by (apply Z.pow_le_mono_r; lia).
    change (10 ^ 14) with 100000000000000 in Hle.
    change (2 ^ 53) with 9007199254740992. lia.
  - replace (Z.to_nat len) with (S (Z.to_nat (len - 1))) by lia.
    apply string_of_Z_length.
    rewrite Nat2Z.inj_succ, Z.pow_succ_r, Z2Nat.id by lia. lia.
  - apply string_of_Z_digits. lia.
  - apply string_of_Z_head. lia.
  - intros E. apply string_of_Z_inj in E. lia.
Qed.

Lemma generateOTP_fixed_length_witness :
  10 ^ (6 - 1) + 23456 < 2 ^ 53 ∧
  String.length (generateOTP 6 23456) = Z.to_nat 6 ∧
  allDigits (generateOTP 6 23456) = true ∧
  (∃ c s, generateOTP 6 23456 = String c s ∧ c ≠ "0"%char) ∧
  (generateOTP 6 23456 = generateOTP 6 0 → 23456 = 0).
Proof.
  apply (generateOTP_fixed_length 6 23456 0).
  - lia.
  - change (10 ^ (6 - 1)) with 100000. lia.
  - change (10 ^ (6 - 1)) with 100000. lia.
Defined.

End DecimalStrings.

Section FileNames.

Import Samples.

Lemma digits_sep_inj (a a' r r' : string) (c c' : ascii) :
  allDigits a = true → allDigits a' = true →
  isDigit c = false → isDigit c' = false →
  a +:+ String c r = a' +:+ String c' r' →
  a = a' ∧ c = c' ∧ r = r'.
Proof.
  revert a'. induction a as [| x a IH]; intros [| x' a'] Ha Ha' Hc Hc' E; simpl in *.
  - by injection E as -> ->.
  - injection E as -> _. apply andb_true_iff in Ha'. destruct Ha'. congruence.
  - injection E as -> _. apply andb_true_iff in Ha. destruct Ha. congruence.
  - injection E as -> E. apply andb_true_iff in Ha, Ha'.
    destruct Ha as [_ Ha], Ha' as [_ Ha'].
    destruct (IH a' Ha Ha' Hc Hc' E) as (-> & -> & ->). done.
Qed.

Lemma pad2_cases (s : string) :
  padStart 2 "0" s =
    match s with
    | EmptyString => "00"
    | String c EmptyString => String "0" (String c EmptyString)
    | _ => s
    end.
Proof. destruct s as [| c [| c' s]]; reflexivity. Qed.

Lemma pad2_digits (s : string) :
  allDigits s = true → allDigits (padStart 2 "0" s) = true.
Proof. rewrite pad2_cases. destruct s as [| c [| c' s]]; simpl; intros H; by rewrite ?H. Qed.

Lemma string_of_Z_shape (z : Z) :
  0 <= z → ∃ c t, string_of_Z z = String c t ∧ (c = "0"%char → t = EmptyString).
Proof.
  intros Hz. destruct (decide (z = 0)) as [-> | Hne].
  - by exists "0"%char, EmptyString.
  - destruct (string_of_Z_head z ltac:(lia)) as (c & t & E & Hc).
    exists c, t. split; [done |]. by intros ->.
Qed.

Lemma pad2_inj (z z' : Z) :
  0 <= z → 0 <= z' →
  padStart 2 "0" (string_of_Z z) = padStart 2 "0" (string_of_Z z') → z = z'.
Proof.
  intros Hz Hz' E. apply string_of_Z_inj.
  rewrite !pad2_cases in E.
  destruct (string_of_Z_shape z Hz) as (c & t & Es & Hc).
  destruct (string_of_Z_shape z' Hz') as (c' & t' & Es' & Hc').
  rewrite Es, Es' in *.
  destruct t as [| x t], t' as [| x' t']; simpl in E.
  - by injection E as ->.
  - injection E as E1 E2 E3. symmetry in E1. by specialize (Hc' E1).
  - injection E as E1 E2 E3. by specialize (Hc E1).
  - done.
Qed.

(** Two dates (with non-negative year, month and day numbers) that get
    the same file name are the same date: no two days share a ledger
    file. *)
Theorem todayFilename_inj (d d' : jsdate) :
  0 <= year d ∧ 0 <= month d ∧ 0 <= day d →
  0 <= year d' ∧ 0 <= month d' ∧ 0 <= day d' →
  todayFilename d = todayFilename d' → d = d'.
Proof.
  intros (Hy & Hm & Hd) (Hy' & Hm' & Hd') E.
  destruct d as [y m dd], d' as [y' m' dd']. unfold todayFilename in E. simpl in *.
  change ("-" +:+ ?x) with (String "-" x) in E.
  apply digits_sep_inj in E; try done; try (apply string_of_Z_digits; lia).
  destruct E as (Ey & _ & E).
  change ("-" +:+ ?x) with (String "-" x) in E.
  apply digits_sep_inj in E; try done;
    try (apply pad2_digits, string_of_Z_digits; lia).
  destruct E as (Em & _ & E).
  change ".xlsx" with (String "." "xlsx") in E.
  apply digits_sep_inj in E; try done;
    try (apply pad2_digits, string_of_Z_digits; lia).
  destruct E as (Ed & _ & _).
  apply string_of_Z_inj in Ey. apply pad2_inj in Em; [| lia | lia].
  apply pad2_inj in Ed; [| lia | lia].
  f_equal; lia.
Qed.

Lemma todayFilename_inj_witness :
  day1 = {| year := 2000 + 26; month := 0; day := 2 + 3 |}.
Proof.
  apply (todayFilename_inj day1 {| year := 2000 + 26; month := 0; day := 2 + 3 |}).
  - simpl. lia.
  - simpl. lia.
  - reflexivity.
Defined.

End FileNames.

(** ** Sending with retries *)

Section RetryTraces.

Import Samples.

Variable sendMail : nat → mailResult.

Lemma sendLoop_ok_inv (remaining : nat) :
  ∀ (i : nat) (lastErr : option string) (info : string),
    fst (sendLoop sendMail remaining i lastErr) = RetryOk info →
    ∃ k, (k < remaining)%nat ∧ sendMail (i + k) = Sent info ∧
         ∀ j, (j < k)%nat → ∃ e, sendMail (i + j) = Rejected e.
Proof.
  induction remaining as [| r IH]; intros i lastErr info H; [discriminate H |].
  simpl in H. destruct (sendMail i) as [info0 | e] eqn:E.
  - injection H as <-. exists 0%nat. rewrite Nat.add_0_r.
    split; [lia |]. split; [done |]. intros j Hj. lia.
  - destruct (sendLoop sendMail r (S i) (Some e)) as [res tr] eqn:El.
    simpl in H. subst res.
    destruct (IH (S i) (Some e) info) as (k & Hk & Hs & Hrej).
    { by rewrite El. }
    exists (S k). split; [lia |]. split.
    + by rewrite Nat.add_succ_r.
    + intros [| j] Hj.
      * exists e. by rewrite Nat.add_0_r.
      * destruct (Hrej j ltac:(lia)) as [e' He']. exists e'. by rewrite Nat.add_succ_r.
Qed.

Lemma sendLoop_failed_inv (remaining : nat) :
  ∀ (i : nat) (lastErr err : option string),
    fst (sendLoop sendMail remaining i lastErr) = RetryFailed err →
    ∀ j, (j < remaining)%nat → ∃ e, sendMail (i + j) = Rejected e.
Proof.
  induction remaining as [| r IH]; intros i lastErr err H j Hj; [lia |].
  simpl in H. destruct (sendMail i) as [info0 | e] eqn:E; [discriminate H |].
  destruct (sendLoop sendMail r (S i) (Some e)) as [res tr] eqn:El.
  simpl in H. subst res.
  destruct j as [| j].
  - exists e. by rewrite Nat.add_0_r.
  - destruct (IH (S i) (Some e) err ltac:(by rewrite El) j ltac:(lia)) as [e' He'].
    exists e'. by rewrite Nat.add_succ_r.
Qed.

(** What the loop did, read off its trace: [f] sleeps that add up to
    [(2^(i+f) - 2^i) * 1000] ms, and one call per sleep plus the
    accepted one. *)
Lemma sendLoop_trace (remaining : nat) :
  ∀ (i : nat) (lastErr : option string),
    let '(r, tr) := sendLoop sendMail remaining i lastErr in
    totalSleep tr
    = (2 ^ Z.of_nat (i + sleepCount tr) - 2 ^ Z.of_nat i) * 1000 ∧
    match r with
    | RetryOk _ => (sleepCount tr < remaining)%nat ∧ sendCount tr = S (sleepCount tr)
    | RetryFailed _ => sleepCount tr = remaining ∧ sendCount tr = remaining
    end.
Proof.
  induction remaining as [| r IH]; intros i lastErr; simpl.
  - rewrite Nat.add_0_r. split; [lia | done].
  - destruct (sendMail i) as [info0 | e]; simpl.
    + rewrite Nat.add_0_r. split; [lia |]. split; [lia | done].
    + specialize (IH (S i) (Some e)).
      destruct (sendLoop sendMail r (S i) (Some e)) as [res tr]. simpl.
      destruct IH as [Hsum Hres]. split.
      * rewrite Hsum.
        replace (Z.of_nat (S i + sleepCount tr)) with (Z.of_nat (i + S (sleepCount tr)))
          by lia.
        replace (Z.of_nat (S i)) with (Z.succ (Z.of_nat i)) by lia.
        rewrite Z.pow_succ_r by lia. lia.
      * destruct res; destruct Hres; split; lia.
Qed.

End RetryTraces.

(** [sendWithRetry] reports success with the answer of the first
    accepted call, and only when one of its [attempts] calls was
    accepted; it reports failure exactly when every one of them was
    rejected. *)
Theorem sendWithRetry_outcome (sendMail : nat → mailResult) (attempts : nat) :
  (∀ info,
     fst (sendWithRetry sendMail attempts) = RetryOk info ↔
     ∃ k, (k < attempts)%nat ∧ sendMail k = Sent info ∧
          ∀ j, (j < k)%nat → ∃ e, sendMail j = Rejected e) ∧
  ((∃ err, fst (sendWithRetry sendMail attempts) = RetryFailed err) ↔
   ∀ j, (j < attempts)%nat → ∃ e, sendMail j = Rejected e).
Proof.
  unfold sendWithRetry. split.
  - intros info. split.
    + intros H. by apply (sendLoop_ok_inv sendMail attempts 0 None info).
    + intros (k & Hk & Hs & Hrej).
      by rewrite (sendLoop_success sendMail k attempts 0 None info Hk Hrej Hs).
  - split.
    + intros [err H]. by apply (sendLoop_failed_inv sendMail attempts 0 None err).
    + intros Hall. destruct attempts as [| n].
      * by exists None.
      * destruct (Hall n ltac:(lia)) as [e He]. exists (Some e).
        rewrite (sendLoop_failure sendMail (S n) 0 None e); [done | lia | done |].
        by replace (0 + S n - 1)%nat with n by lia.
Qed.

(** The cost of a send.  After [f] failed attempts the sender has slept
    [(2^f - 1) * 1000] ms in all.  A success comes after fewer than
    [attempts] failures and one more call; a failure after exactly
    [attempts] calls, each followed by its sleep. *)
Theorem sendWithRetry_backoff (sendMail : nat → mailResult) (attempts : nat) :
  let '(r, tr) := sendWithRetry sendMail attempts in
  totalSleep tr = (2 ^ Z.of_nat (sleepCount tr) - 1) * 1000 ∧
  (sendCount tr <= attempts)%nat ∧
  match r with
  | RetryOk _ => (sleepCount tr < attempts)%nat ∧ sendCount tr = S (sleepCount tr)
  | RetryFailed _ => sleepCount tr = attempts ∧ sendCount tr = attempts
  end.
Proof.
  unfold sendWithRetry.
  pose proof (sendLoop_trace sendMail attempts 0 None) as H.
  destruct (sendLoop sendMail attempts 0 None) as [r tr].
  destruct H as [Hsum Hres]. split; [| split; [| done]].
  - rewrite Hsum. simpl. lia.
  - destruct r; lia.
Qed.

Example flaky_costs :
  ∃ tr, sendWithRetry Samples.flaky 3 = (RetryOk "250 OK", tr)
        ∧ totalSleep tr = 3000 ∧ sendCount tr = 3%nat.
Proof. eexists. repeat split. Qed.

(** ** The limiter under load *)

Section GateRuns.

Import Samples.

Variable limit : Z.

Lemma gateRun_app calls1 calls2 g :
  gateRun limit (calls1 ++ calls2) g = gateRun limit calls2 (gateRun limit calls1 g).
Proof. unfold gateRun. apply fold_left_app. Qed.

Lemma queuedBy_app calls1 calls2 g :
  queuedBy limit (calls1 ++ calls2) g
  = queuedBy limit calls1 g ++ queuedBy limit calls2 (gateRun limit calls1 g).
Proof.
  revert g. induction calls1 as [| c calls1 IH]; intros g; simpl; [done |].
  by rewrite IH, app_assoc.
Qed.

Lemma resumedBy_app calls1 calls2 g :
  resumedBy limit (calls1 ++ calls2) g
  = resumedBy limit calls1 g ++ resumedBy limit calls2 (gateRun limit calls1 g).
Proof.
  revert g. induction calls1 as [| c calls1 IH]; intros g; simpl; [done |].
  by rewrite IH, app_assoc.
Qed.

Lemma gateRun_cons c calls g :
  gateRun limit (c :: calls) g = gateRun limit calls (gateStep limit g c).
Proof. reflexivity. Qed.

(** A burst of acquires: the first free slots are taken, the other
    callers queue up in order, nobody is resumed. *)
Lemma acquires_run (ids : list nat) :
  ∀ g,
    gateRun limit (map Acquire ids) g
    = {| emailActive :=
           Z.max (emailActive g) (Z.min limit (emailActive g + Z.of_nat (length ids)));
         emailQueue :=
           emailQueue g ++ drop (Z.to_nat (limit - emailActive g)) ids |}
    ∧ queuedBy limit (map Acquire ids) g = drop (Z.to_nat (limit - emailActive g)) ids
    ∧ resumedBy limit (map Acquire ids) g = [].
Proof.
  induction ids as [| id ids IH]; intros [a q].
  - cbn. rewrite drop_nil, app_nil_r. repeat split. f_equal. lia.
  - cbn [map queuedBy resumedBy]. rewrite gateRun_cons.
    unfold gateStep, acquireEmailSlot. cbn [emailActive emailQueue].
    destruct (Z.ltb_spec a limit) as [Hlt | Hge]; cbn [fst snd].
    + destruct (IH {| emailActive := a + 1; emailQueue := q |}) as (Hrun & Hq & Hr).
      cbn [emailActive emailQueue] in *. rewrite Hrun, Hq, Hr.
      replace (Z.to_nat (limit - a)) with (S (Z.to_nat (limit - (a + 1)))) by lia.
      cbn [drop length app]. repeat split. f_equal. lia.
    + destruct (IH {| emailActive := a; emailQueue := q ++ [id] |}) as (Hrun & Hq & Hr).
      cbn [emailActive emailQueue] in *. rewrite Hrun, Hq, Hr.
      replace (Z.to_nat (limit - a)) with 0%nat by lia.
      rewrite !drop_0, <- app_assoc. cbn [length app]. repeat split. f_equal. lia.
Qed.

(** Releases with nobody waiting count the held slots down to none. *)
Lemma releases_count_down (n : nat) :
  ∀ a, 0 <= a → Z.to_nat a = n →
    gateRun limit (repeat Release n) {| emailActive := a; emailQueue := [] |} = idle
    ∧ queuedBy limit (repeat Release n) {| emailActive := a; emailQueue := [] |} = []
    ∧ resumedBy limit (repeat Release n) {| emailActive := a; emailQueue := [] |} = [].
Proof.
  induction n as [| n IH]; intros a Ha Hn.
  - cbn. repeat split. unfold idle. f_equal. lia.
  - cbn [repeat queuedBy resumedBy]. rewrite gateRun_cons.
    unfold gateStep, releaseEmailSlot. cbn [emailActive emailQueue fst snd].
    destruct (IH (Z.max 0 (a - 1)) ltac:(lia) ltac:(lia)) as (Hrun & Hq & Hr).
    by rewrite Hrun, Hq, Hr.
Qed.

(** Releases with callers waiting and a slot held resume them in order,
    then count the held slots down. *)
Lemma releases_drain (queue : list nat) :
  ∀ a, 1 <= a ∨ (queue = [] ∧ 0 <= a) →
    gateRun limit (repeat Release (length queue + Z.to_nat a))
      {| emailActive := a; emailQueue := queue |} = idle
    ∧ queuedBy limit (repeat Release (length queue + Z.to_nat a))
        {| emailActive := a; emailQueue := queue |} = []
    ∧ resumedBy limit (repeat Release (length queue + Z.to_nat a))
        {| emailActive := a; emailQueue := queue |} = queue.
Proof.
  induction queue as [| w queue IH]; intros a Ha.
  - cbn [length Nat.add]. apply releases_count_down; [lia | done].
  - destruct Ha as [Ha | [? _]]; [| done].
    cbn [length Nat.add repeat queuedBy resumedBy]. rewrite gateRun_cons.
    unfold gateStep, releaseEmailSlot. cbn [emailActive emailQueue fst snd].
    replace (Z.max 0 (a - 1) + 1) with a by lia.
    destruct (IH a (or_introl Ha)) as (Hrun & Hq & Hr).
    by rewrite Hrun, Hq, Hr.
Qed.

End GateRuns.

(** From the idle limiter, [n] callers that ask for a slot and then [n]
    releases: the callers beyond the limit were queued, each release
    resumed the one waiting longest, all of them were resumed, and the
    limiter is idle again. *)
Theorem gate_drains (EMAIL_CONCURRENCY : Z) (ids : list nat) :
  1 <= EMAIL_CONCURRENCY →
  let calls := map Acquire ids ++ repeat Release (length ids) in
  gateRun EMAIL_CONCURRENCY calls idle = idle ∧
  queuedBy EMAIL_CONCURRENCY calls idle = drop (Z.to_nat EMAIL_CONCURRENCY) ids ∧
  resumedBy EMAIL_CONCURRENCY calls idle = drop (Z.to_nat EMAIL_CONCURRENCY) ids.
Proof.
  intros Hpos calls. unfold calls.
  rewrite gateRun_app, queuedBy_app, resumedBy_app.
  destruct (acquires_run EMAIL_CONCURRENCY ids idle) as (Hrun & Hq & Hr).
  simpl in Hrun, Hq. rewrite Z.sub_0_r in Hrun, Hq. rewrite Z.add_0_l in Hrun.
  rewrite Hrun, Hq, Hr.
  set (a := Z.max 0 (Z.min EMAIL_CONCURRENCY (Z.of_nat (length ids)))).
  set (queue := drop (Z.to_nat EMAIL_CONCURRENCY) ids).
  assert (length ids = (length queue + Z.to_nat a)%nat) as Hn.
  { unfold queue, a. rewrite length_drop. lia. }
  replace (repeat Release (length ids))
    with (repeat Release (length queue + Z.to_nat a)) by (by rewrite Hn).
  destruct (releases_drain EMAIL_CONCURRENCY queue a) as (Hrun2 & Hq2 & Hr2).
  { destruct queue as [| w queue'] eqn:E.
    - right. split; [done | lia].
    - left. assert (length queue ≠ 0)%nat as Hlen by (rewrite E; simpl; lia).
      unfold queue in Hlen. rewrite length_drop in Hlen. lia. }
  rewrite Hrun2, Hq2, Hr2.
  by rewrite app_nil_r.
Qed.

Lemma gate_drains_witness :
  let calls := map Acquire [1; 2; 3; 4; 5]%nat ++ repeat Release 5 in
  gateRun 2 calls idle = idle ∧
  queuedBy 2 calls idle = [3; 4; 5]%nat ∧
  resumedBy 2 calls idle = [3; 4; 5]%nat.
Proof. apply (gate_drains 2 [1; 2; 3; 4; 5]%nat). lia. Defined.

(** A dispatch that runs alone, for a date that has a file and with
    the mail account configured, is admitted at once and, when its send
    settles (delivered or not), hands the limiter back as it found it. *)
Theorem dispatch_alone_restores_gate
    (EMAIL_CONCURRENCY : Z) (me : nat) (date : jsdate)
    (files : gmap string workbook) (g : gate)
    (DATA_DIR : string) (sendMail : nat → mailResult) (attempts : nat) :
  existsSync (todayFilename date) files = true →
  emailQueue g = [] →
  0 <= emailActive g < EMAIL_CONCURRENCY →
  ∃ g',
    dispatchBegin EMAIL_CONCURRENCY me date true files g = StartAdmitted g' ∧
    emailActive g' = emailActive g + 1 ∧
    snd (dispatchAdmitted DATA_DIR sendMail attempts date g') = (g, None).
Proof.
  intros Hfile Hq Ha. destruct g as [a q]. simpl in *. subst q.
  unfold dispatchBegin, acquireEmailSlot. rewrite Hfile. simpl.
  destruct (Z.ltb_spec a EMAIL_CONCURRENCY) as [_ | ?]; [| lia].
  eexists. split; [reflexivity |]. split; [reflexivity |].
  unfold dispatchAdmitted.
  destruct (sendWithRetry sendMail attempts) as [result tr]. simpl.
  unfold releaseEmailSlot. simpl. do 2 f_equal. lia.
Qed.

Lemma dispatch_alone_restores_gate_witness :
  ∃ g',
    dispatchBegin 2 7 Samples.day1 true
      {[ todayFilename Samples.day1 := [freshSheet Samples.record2 "T"] ]} idle
    = StartAdmitted g' ∧
    emailActive g' = emailActive idle + 1 ∧
    snd (dispatchAdmitted Samples.dataDir Samples.flaky 3 Samples.day1 g') = (idle, None).
Proof.
  apply (dispatch_alone_restores_gate 2 7 Samples.day1 _ idle Samples.dataDir Samples.flaky 3).
  - reflexivity.
  - reflexivity.
  - simpl. lia.
Defined.

(** ** Sheets written and repaired *)

Section SheetShapes.

Import Samples.

Implicit Types (files : gmap string workbook) (ws : worksheet) (wb : workbook).

Lemma values_map_Some (l : list jsval) : values (map Some l) = map Some l.
Proof. induction l as [| v l IH]; [done |]. simpl map. by rewrite values_cons_Some, IH. Qed.

Lemma headerCells_map (headers : list string) :
  headerCells headers = map Some (map VStr headers).
Proof. unfold headerCells. by rewrite map_map. Qed.

Lemma addRow_map_Some (l : list jsval) : addRow (map Some l) = map Some l.
Proof. by destruct l. Qed.

(** The first header written by [appendToDailyExcel] is never empty. *)
Lemma freshSheet_first_header record iso :
  ∃ h t, rows (freshSheet record iso) !! 0%nat = Some (headerCells (h :: t)) ∧ h ≠ "".
Proof.
  unfold freshSheet. simpl.
  destruct (List.filter nonEmptyString (map trim (keys record))) as [| h t] eqn:E.
  - by exists "added_at", [].
  - exists h, (t ++ ["added_at"]). split; [done |].
    apply filter_head_true in E. unfold nonEmptyString in E.
    apply negb_true_iff in E. by apply String.eqb_neq in E.
Qed.

(** The sheet written by an append is aligned: its header has no hole
    and no empty name and ends with [added_at]; its one data row has a
    cell under every header, the last one holding the time stamp. *)
Theorem freshSheet_aligned (record : jsobject) (iso : string) :
  ∃ (headers : list string) (cells : list jsval),
    header (freshSheet record iso) = map (λ h, Some (VStr h)) headers ∧
    dataRows (freshSheet record iso) = [map Some cells] ∧
    length cells = length headers ∧
    Forall (λ h, h ≠ "") headers ∧
    last headers = Some "added_at" ∧
    last cells = Some (VStr iso).
Proof.
  set (ks := List.filter nonEmptyString (map trim (keys record))).
  exists (ks ++ ["added_at"]),
    (map (λ h, if String.eqb h "added_at" then VStr iso else orEmpty (get record h))
       (ks ++ ["added_at"])).
  split; [| split; [| split; [| split; [| split]]]].
  - unfold header, getRow, freshSheet. simpl nth. fold ks.
    by rewrite headerCells_map, values_map_Some, map_map.
  - unfold dataRows, freshSheet. simpl tl. fold ks.
    by rewrite addRow_map_Some.
  - by rewrite length_map.
  - apply Forall_app. split; [| by repeat constructor].
    apply List.Forall_forall. intros h Hin. apply filter_In in Hin.
    destruct Hin as [_ Hne]. unfold nonEmptyString in Hne.
    apply negb_true_iff in Hne. by apply String.eqb_neq in Hne.
  - apply last_snoc.
  - rewrite map_app. apply last_snoc.
Qed.

(** A file that [appendToDailyExcel] has just written is left alone by
    [repairXlsxFile]: no change is reported and nothing is written. *)
Theorem repair_skips_appended_file
    (record : jsobject) (date : jsdate) (iso : string) (writeOk : bool) files :
  ∃ files',
    appendToDailyExcel record date iso true files = Some (todayFilename date, files') ∧
    repairXlsxFile (todayFilename date) writeOk files' = Some (false, files').
Proof.
  eexists. split; [apply appendToDailyExcel_writes |].
  unfold repairXlsxFile. rewrite lookup_insert_eq.
  assert (isShifted (freshSheet record iso) = false) as Hns.
  { destruct (freshSheet_first_header record iso) as (h & t & Hrow & Hh).
    unfold isShifted, getRow. simpl Nat.sub.
    destruct (rows (freshSheet record iso)) as [| r rs]; [done |].
    simpl in Hrow. injection Hrow as ->. simpl nth. simpl headerCells.
    rewrite values_cons_Some. unfold shiftedHeader. simpl.
    by rewrite (proj2 (String.eqb_neq h "") Hh). }
  unfold repairWorkbook. simpl. by rewrite Hns.
Qed.





End SheetShapes.

(** ** Field names *)

Section Normalizer.

Import Samples.

Lemma get_set_eq (o : jsobject) (k : string) (v : jsval) : get (set o k v) k = Some v.
Proof.
  induction o as [| [k' v'] o IH]; simpl.
  - by rewrite String.eqb_refl.
  - destruct (String.eqb k' k) eqn:E; simpl; rewrite E; [done | exact IH].
Qed.

Lemma get_set_ne (o : jsobject) (k k' : string) (v : jsval) :
  k ≠ k' → get (set o k v) k' = get o k'.
Proof.
  intros Hne. induction o as [| [k0 v0] o IH]; simpl.
  - by rewrite (proj2 (String.eqb_neq k k') Hne).
  - destruct (String.eqb k0 k) eqn:E; simpl.
    + apply String.eqb_eq in E. subst k0.
      by rewrite (proj2 (String.eqb_neq k k') Hne).
    + destruct (String.eqb k0 k'); [done | exact IH].
Qed.

Lemma keys_set (o : jsobject) (k : string) (v : jsval) :
  keys (set o k v) = if decide (k ∈ keys o) then keys o else keys o ++ [k].
Proof.
  induction o as [| [k0 v0] o IH]; simpl; [done |].
  destruct (String.eqb_spec k0 k) as [-> | Hne]; simpl.
  - rewrite decide_True; [done | by left].
  - unfold keys in *. rewrite IH.
    destruct (decide (k ∈ map fst o)) as [Hin | Hnin].
    + rewrite decide_True; [done | by right].
    + rewrite decide_False; [done |]. intros Hin. apply elem_of_cons in Hin.
      destruct Hin as [-> | Hin]; done.
Qed.

Lemma normalizeRecord_snoc (raw : jsobject) (k : string) (v : jsval) :
  normalizeRecord (raw ++ [(k, v)]) = set (normalizeRecord raw) (targetOf k) v.
Proof. unfold normalizeRecord. by rewrite fold_left_app. Qed.

Lemma normalizeRecord_facts (raw : jsobject) :
  (∀ column,
     get (normalizeRecord raw) column
     = get (rev (map (λ kv, (targetOf (fst kv), snd kv)) raw)) column) ∧
  NoDup (keys (normalizeRecord raw)) ∧
  (length (normalizeRecord raw) <= length raw)%nat.
Proof.
  induction raw as [| [k v] raw IH] using rev_ind.
  - split; [done |]. split; [constructor | done].
  - destruct IH as (Hget & Hnd & Hlen).
    rewrite normalizeRecord_snoc. split; [| split].
    + intros column. rewrite map_app, rev_app_distr. simpl.
      destruct (String.eqb_spec (targetOf k) column) as [<- | Hne].
      * apply get_set_eq.
      * rewrite get_set_ne by done. apply Hget.
    + rewrite keys_set. destruct (decide (targetOf k ∈ keys (normalizeRecord raw))); [done |].
      apply NoDup_app. split; [done |]. split; [| apply NoDup_singleton].
      intros x Hx Hx'. apply list_elem_of_singleton in Hx'. by subst x.
    + assert (length (keys (set (normalizeRecord raw) (targetOf k) v))
              <= S (length (keys (normalizeRecord raw))))%nat as Hk.
      { rewrite keys_set.
        destruct (decide (targetOf k ∈ keys (normalizeRecord raw))); [lia |].
        rewrite length_app. simpl. lia. }
      unfold keys in Hk. rewrite !length_map in Hk. rewrite length_app. simpl. lia.
Qed.

(** What [normalizeRecord] returns: under a column name, the value of
    the last raw field written to that column; no column twice; and no
    more columns than raw fields. *)
Theorem normalizeRecord_lookup (raw : jsobject) :
  (∀ column,
     get (normalizeRecord raw) column
     = get (rev (map (λ kv, (targetOf (fst kv), snd kv)) raw)) column) ∧
  NoDup (keys (normalizeRecord raw)) ∧
  (length (normalizeRecord raw) <= length raw)%nat.
Proof. apply normalizeRecord_facts. Qed.

Lemma fieldMap_targets (k t : string) :
  fieldMapMember k = Some t → targetOf t = t.
Proof.
  unfold fieldMapMember, FIELD_MAP, OBJECT_PROTOTYPE. cbn [fieldMap].
  repeat (destruct (String.eqb _ k); [intros [= <-]; vm_compute; reflexivity |]).
  intros H. discriminate H.
Qed.

Lemma targetOf_idempotent (k : string) : targetOf (targetOf k) = targetOf k.
Proof.
  destruct (fieldMapMember k) as [t |] eqn:E.
  { assert (targetOf k = t) as -> by (unfold targetOf; by rewrite E).
    by eapply fieldMap_targets. }
  destruct (fieldMapMember (trim k)) as [t |] eqn:E'.
  { assert (targetOf k = t) as -> by (unfold targetOf; by rewrite E, E').
    by eapply fieldMap_targets. }
  assert (targetOf k = k) as Hk by (unfold targetOf; by rewrite E, E').
  by rewrite !Hk.
Qed.

Lemma set_fresh (o : jsobject) (k : string) (v : jsval) :
  k ∉ keys o → set o k v = o ++ [(k, v)].
Proof.
  induction o as [| [k0 v0] o IH]; simpl; intros Hnin; [done |].
  apply not_elem_of_cons in Hnin. destruct Hnin as [Hne Hnin].
  rewrite (proj2 (String.eqb_neq k0 k)) by done. by rewrite IH.
Qed.

Lemma renormalize_fixed (o acc : jsobject) :
  NoDup (keys (acc ++ o)) →
  Forall (λ kv, targetOf (fst kv) = fst kv) o →
  fold_left (λ out kv, set out (targetOf (fst kv)) (snd kv)) o acc = acc ++ o.
Proof.
  revert acc. induction o as [| [k v] o IH]; intros acc Hnd Hfix; simpl.
  - by rewrite app_nil_r.
  - apply Forall_cons in Hfix. destruct Hfix as [Hk Hfix]. simpl in Hk. rewrite Hk.
    assert (k ∉ keys acc) as Hnin.
    { unfold keys in *. rewrite map_app in Hnd. simpl in Hnd.
      apply NoDup_app in Hnd. destruct Hnd as (_ & Hdis & _).
      intros Hin. apply (Hdis k Hin). by left. }
    rewrite (set_fresh _ _ _ Hnin), IH.
    + by rewrite <- app_assoc.
    + by rewrite <- app_assoc.
    + done.
Qed.

Lemma normalizeRecord_keys_fixed (raw : jsobject) :
  Forall (λ kv, targetOf (fst kv) = fst kv) (normalizeRecord raw).
Proof.
  induction raw as [| [k v] raw IH] using rev_ind; [constructor |].
  rewrite normalizeRecord_snoc.
  generalize dependent (normalizeRecord raw). intros o Ho.
  induction o as [| [k0 v0] o IHo]; simpl.
  - constructor; [apply targetOf_idempotent | constructor].
  - apply Forall_cons in Ho. destruct Ho as [Hk0 Ho].
    destruct (String.eqb k0 (targetOf k)); constructor; try done. by apply IHo.
Qed.

(** Normalizing twice changes nothing more: the columns written by
    [normalizeRecord] are names it maps to themselves. *)
Theorem normalizeRecord_idempotent (raw : jsobject) :
  normalizeRecord (normalizeRecord raw) = normalizeRecord raw.
Proof.
  destruct (normalizeRecord_facts raw) as (_ & Hnd & _).
  unfold normalizeRecord at 1.
  change (fold_left _ (normalizeRecord raw) [])
    with (fold_left (λ out kv, set out (targetOf (fst kv)) (snd kv))
            (normalizeRecord raw) []).
  rewrite renormalize_fixed; [done | done | apply normalizeRecord_keys_fixed].
Qed.

Example normalizeRecord_sample :
  normalizeRecord
    [("PAN1", VStr "ABCDE1234F"); (" City ", VStr "Pune"); ("company", VStr "Acme");
     ("City", VStr "Delhi"); ("note", VStr "x")]
  = [("PAN", VStr "ABCDE1234F"); ("City", VStr "Delhi"); ("Company", VStr "Acme");
     ("note", VStr "x")].
Proof. reflexivity. Qed.

(** A field named like a member every object inherits is filed under
    the text of that member. *)
Example normalizeRecord_inherited :
  normalizeRecord
    [("constructor", VStr "x"); (" toString ", VNum 1); ("__proto__", VBool true)]
  = [("function Object() { [native code] }", VStr "x");
     ("function toString() { [native code] }", VNum 1);
     ("[object Object]", VBool true)].
Proof. reflexivity. Qed.

End Normalizer.

(** ** Files and dispatch *)

Section FilesAndDispatch.

Import Samples.

Implicit Types (files : gmap string workbook) (wb : workbook).

(** A dispatch answers "No file" exactly when the directory has no file
    for the date.  A successful append creates the file of its date, so
    that a dispatch for that date goes on to send, and leaves the files
    of all other dates as they were. *)
Theorem append_then_dispatch
    (EMAIL_CONCURRENCY : Z) (me : nat) (record : jsobject) (date : jsdate)
    (iso : string) (smtpConfigured : bool) files (g : gate) :
  (dispatchBegin EMAIL_CONCURRENCY me date smtpConfigured files g = StartNoFile
   ↔ files !! todayFilename date = None) ∧
  ∃ files',
    appendToDailyExcel record date iso true files = Some (todayFilename date, files') ∧
    dispatchBegin EMAIL_CONCURRENCY me date smtpConfigured files' g ≠ StartNoFile ∧
    ∀ other, other ≠ todayFilename date → files' !! other = files !! other.
Proof.
  assert (∀ fs, dispatchBegin EMAIL_CONCURRENCY me date smtpConfigured fs g = StartNoFile
                ↔ fs !! todayFilename date = None) as Hiff.
  { intros fs. unfold dispatchBegin, existsSync.
    destruct (fs !! todayFilename date) as [wb |]; simpl; [| done].
    split; [| done]. destruct smtpConfigured; simpl; [| done].
    by destruct (acquireEmailSlot EMAIL_CONCURRENCY me g) as [g' []]. }
  split; [apply Hiff |].
  eexists. split; [apply appendToDailyExcel_writes |]. split.
  - rewrite Hiff, lookup_insert_eq. done.
  - intros other Hne. by rewrite lookup_insert_ne.
Qed.

Lemma addRow_map_cell {A : Type} (f : A → jsval) (l : list A) :
  addRow (map (λ x, Some (f x)) l) = map (λ x, Some (f x)) l.
Proof. by destruct l. Qed.

(** The existing-file branch of [appendToDailyExcel], as written (the
    guard in front of it is [false]): whenever it returns, the sheet it
    builds replaces the first sheet of the workbook, its header has no
    empty name and contains [added_at], and every row below has exactly
    one cell per header. *)
Theorem reconcileSheet_aligned (record : jsobject) (iso : string) wb wb' :
  reconcileSheet record iso wb = Some wb' →
  ∃ (ws : worksheet) (headers : list string) (body : list row),
    wb' = tl wb ++ [ws] ∧
    rows ws = headerCells headers :: body ∧
    In "added_at" headers ∧
    Forall (λ h, h ≠ "") headers ∧
    Forall (λ r, length r = length headers) body.
Proof.
  unfold reconcileSheet. destruct wb as [| worksheet others]; [discriminate |].
  destruct (values (getRow 1 worksheet)) as [| c0 cs] eqn:Ev; [discriminate |].
  set (existingHeaders :=
         List.filter nonEmptyString (map toString (omap id (c0 :: cs)))).
  set (allHeaders0 :=
         List.filter nonEmptyString (map trim (uniq (existingHeaders ++ keys record)))).
  set (allHeaders :=
         if existsb (String.eqb "added_at") allHeaders0 then allHeaders0
         else allHeaders0 ++ ["added_at"]).
  intros [= <-]. eexists _, allHeaders, _. split; [reflexivity |].
  split; [reflexivity |].
  assert (Forall (λ h, h ≠ "") allHeaders0) as Hne0.
  { apply List.Forall_forall. intros h Hin. apply filter_In in Hin.
    destruct Hin as [_ Hne]. unfold nonEmptyString in Hne.
    apply negb_true_iff in Hne. by apply String.eqb_neq in Hne. }
  split; [| split].
  - unfold allHeaders. destruct (existsb (String.eqb "added_at") allHeaders0) eqn:E.
    + apply existsb_exists in E. destruct E as (h & Hin & Hh).
      apply String.eqb_eq in Hh. by subst h.
    + apply in_or_app. right. by left.
  - unfold allHeaders. destruct (existsb (String.eqb "added_at") allHeaders0); [done |].
    apply Forall_app. split; [done |]. by repeat constructor.
  - apply Forall_app. split.
    + apply List.Forall_forall. intros r Hin. apply in_map_iff in Hin.
      destruct Hin as (prev & <- & _).
      by rewrite (addRow_map_cell (λ h, orEmpty (get prev h))), length_map.
    + repeat constructor. rewrite map_map.
      rewrite (addRow_map_cell
                 (λ h, if String.eqb h "added_at" then VStr iso else orEmpty (get record h))).
      by rewrite length_map.
Qed.

Lemma reconcileSheet_aligned_witness :
  ∃ (ws : worksheet) (headers : list string) (body : list row),
    [{| name := "submissions";
        rows := [headerCells ["LoanAmount"; "Mobile"; "added_at"; "City"];
                 [Some (VNum 50000); Some (VStr "9999999999"); Some (VStr "T1"); Some (VStr "")];
                 [Some (VStr ""); Some (VStr ""); Some (VStr "T2"); Some (VStr "Pune")]] |}]
    = tl [freshSheet record2 "T1"] ++ [ws] ∧
    rows ws = headerCells headers :: body ∧
    In "added_at" headers ∧
    Forall (λ h, h ≠ "") headers ∧
    Forall (λ r, length r = length headers) body.
Proof.
  apply (reconcileSheet_aligned record3 "T2" [freshSheet record2 "T1"]).
  reflexivity.
Defined.

End FilesAndDispatch.

(** ** Verification is earned *)

Section VerifiedRecords.

Import Samples.

Lemma serveAll_snoc (requests : list request) (r : request)
    (st : gmap string otpRecord * gmap string workbook) :
  serveAll (requests ++ [r]) st = serve (serveAll requests st) r.
Proof. unfold serveAll. by rewrite fold_left_app. Qed.

(** Whatever requests were served since the store was empty, a record
    that is marked verified got there through a [/verify-otp] request
    for its identifier whose code, trimmed, is the stored code. *)
Theorem verified_only_by_matching_code
    (requests : list request) (mobile : string) (d : otpRecord) :
  fst (serveAll requests (∅, ∅)) !! mobile = Some d →
  verified d = true →
  ∃ code now, In (VerifyOtp mobile code now) requests ∧ trim code = otp d.
Proof.
  revert mobile d.
  induction requests as [| r requests IH] using rev_ind; intros mobile d Hget Hver.
  { simpl in Hget. by rewrite lookup_empty in Hget. }
  assert (∀ d0, fst (serveAll requests (∅, ∅)) !! mobile = Some d0 →
                verified d0 = true → otp d0 = otp d →
                ∃ code now, In (VerifyOtp mobile code now) (requests ++ [r])
                            ∧ trim code = otp d) as Hold.
  { intros d0 H0 Hv0 Hotp. destruct (IH mobile d0 H0 Hv0) as (code & now & Hin & Ht).
    exists code, now. split; [apply in_or_app; by left | congruence]. }
  rewrite serveAll_snoc in Hget.
  destruct (serveAll requests (∅, ∅)) as [store files] eqn:Est. simpl in Hold.
  destruct r as [m now u | m code now | body today iso w e]; simpl in Hget.
  - unfold send_otp in Hget.
    destruct (String.eqb m "" || negb (validMobile m)); simpl in Hget;
      [by eapply Hold |].
    assert (<[m := issuedRecord u now]> store !! mobile = Some d →
            ∃ code now0, In (VerifyOtp mobile code now0) (requests ++ [SendOtp m now u])
                         ∧ trim code = otp d) as Hins.
    { intros H. destruct (decide (m = mobile)) as [-> | Hne].
      - rewrite lookup_insert_eq in H. injection H as <-. discriminate Hver.
      - rewrite lookup_insert_ne in H by done. by eapply Hold. }
    destruct (store !! m) as [d1 |]; simpl in Hget; [| by apply Hins].
    destruct (now - timestamp d1 <? OTP_RESEND_COOLDOWN); simpl in Hget;
      [by eapply Hold | by apply Hins].
  - unfold verify_otp in Hget.
    destruct (String.eqb m "" || String.eqb code ""); simpl in Hget; [by eapply Hold |].
    destruct (store !! m) as [d1 |] eqn:E1; simpl in Hget; [| by eapply Hold].
    assert (delete m store !! mobile = Some d →
            ∃ code0 now0, In (VerifyOtp mobile code0 now0) (requests ++ [VerifyOtp m code now])
                          ∧ trim code0 = otp d) as Hdel.
    { intros H. destruct (decide (m = mobile)) as [-> | Hne].
      - by rewrite lookup_delete_eq in H.
      - rewrite lookup_delete_ne in H by done. by eapply Hold. }
    destruct (now - timestamp d1 >? 10 * 60 * 1000); simpl in Hget; [by apply Hdel |].
    destruct (attempts d1 >=? 3); simpl in Hget; [by apply Hdel |].
    destruct (String.eqb_spec (otp d1) (trim code)) as [Eotp | Eotp]; simpl in Hget.
    + destruct (decide (m = mobile)) as [-> | Hne].
      * rewrite lookup_insert_eq in Hget. injection Hget as <-.
        exists code, now. split; [apply in_or_app; right; by left | by simpl].
      * rewrite lookup_insert_ne in Hget by done. by eapply Hold.
    + destruct (decide (m = mobile)) as [-> | Hne].
      * rewrite lookup_insert_eq in Hget. injection Hget as <-.
        by apply (Hold d1).
      * rewrite lookup_insert_ne in Hget by done. by eapply Hold.
  - unfold submit_loan, getByBody, deleteByBody in Hget.
    destruct (get body "mobile") as [[m | |] |]; simpl in Hget; try by eapply Hold.
    destruct (store !! m) as [d1 |]; simpl in Hget; [| by eapply Hold].
    destruct (verified d1); simpl in Hget; [| by eapply Hold].
    destruct (appendToDailyExcel (normalizeRecord body) today iso w files)
      as [[filePath files'] |]; simpl in Hget; [| by eapply Hold].
    destruct (decide (m = mobile)) as [-> | Hne].
    + by rewrite lookup_delete_eq in Hget.
    + rewrite lookup_delete_ne in Hget by done. by eapply Hold.
Qed.

Lemma verified_only_by_matching_code_witness :
  ∃ code now,
    In (VerifyOtp mobile1 code now)
       [SendOtp mobile1 0 23456; VerifyOtp mobile1 " 123456" 60000]
    ∧ trim code = otp (markVerified record1).
Proof.
  apply (verified_only_by_matching_code
           [SendOtp mobile1 0 23456; VerifyOtp mobile1 " 123456" 60000]
           mobile1 (markVerified record1)); reflexivity.
Defined.

End VerifiedRecords.

(** ** The repair route *)

Section RepairRoute.

Import Samples.

Implicit Types (files : gmap string workbook) (listing : list string).






Example repair_xlsx_sample :
  repair_xlsx "s3cret" (Some "s3cret") ["2026-01-05.xlsx"; "notes.txt"; "2026-01-06.xlsx"]
    (λ _, true) {[ "2026-01-05.xlsx" := [shiftedSheet]; "notes.txt" := [blankHeader] ]}
  = (Some [Repaired "2026-01-05.xlsx" true; RepairError "2026-01-06.xlsx"],
     {[ "2026-01-05.xlsx" :=
          [{| name := "submissions";
              rows := [[Some (VStr "LoanAmount"); Some (VStr "added_at")];
                       [Some (VNum 50000); Some (VStr "T")]] |}];
        "notes.txt" := [blankHeader] ]}).
Proof. vm_compute. reflexivity. Qed.

End RepairRoute.

